(** * drudid: the pull / merge / convert pipeline of [drudid/dataset.py]

    A shallow embedding of the three [typer] commands of
    [src/drudid/dataset.py] and of the configuration they read from
    [src/drudid/config.py], together with the properties of the pipeline
    that the specification states.

    The stages are effectful Python: they read and write files, mutate the
    module-level dictionary [FETCHER_BASE_PARAMS], log, and raise and catch
    exceptions.  They are embedded in a small state-and-exception monad
    whose computations also emit the list of effects they perform, so that
    a statement such as "no file is written" is a statement about that
    list.  The libraries the stages call (httpx, orjson, pandas, the
    project's own [Fetcher]) are an interface record [Env]; the pipeline is
    a function of it. *)

From Stdlib Require Import ZArith Lia List Bool Ascii String.
From stdpp Require Import base tactics option strings gmap list list_numbers pretty.

Set Warnings "-register-all".

(** ** Python values *)

(** The values [orjson.loads] and [httpx.Response.json] produce.  A
    dictionary keeps its insertion order, as a Python [dict] does; a float
    is the finite double [mantissa * 2 ^ exponent]. *)
Inductive value : Type :=
| PNone
| PBool (b : bool)
| PInt (z : Z)
| PFloat (mantissa exponent : Z)
| PStr (s : string)
| PList (l : list value)
| PDict (kv : list (string * value)).

Definition bytes := list Byte.byte.

(** The exception classes that occur; all of them derive from
    [Exception].  [JSONDecodeError] and [EmptyDataError] derive from
    [ValueError]; the [File...] and [IsADirectoryError] classes from
    [OSError]. *)
Inductive exn : Type :=
| TypeError
| KeyError
| AttributeError
| ValueError
| JSONDecodeError
| EmptyDataError
| OSError
| FileNotFoundError
| FileExistsError
| IsADirectoryError
| ImportError
| RuntimeError.

Inductive outcome (A : Type) : Type :=
| Ret (a : A)
| Raise (e : exn).
Arguments Ret {A} a.
Arguments Raise {A} e.

(** [isinstance(e, (ImportError, ValueError, OSError))] *)
Definition is_import_value_os_error (e : exn) : bool :=
  match e with
  | ImportError | ValueError | JSONDecodeError | EmptyDataError
  | OSError | FileNotFoundError | FileExistsError | IsADirectoryError => true
  | _ => false
  end.

Definition exn_name (e : exn) : string :=
  match e with
  | TypeError => "TypeError"
  | KeyError => "KeyError"
  | AttributeError => "AttributeError"
  | ValueError => "ValueError"
  | JSONDecodeError => "JSONDecodeError"
  | EmptyDataError => "EmptyDataError"
  | OSError => "OSError"
  | FileNotFoundError => "FileNotFoundError"
  | FileExistsError => "FileExistsError"
  | IsADirectoryError => "IsADirectoryError"
  | ImportError => "ImportError"
  | RuntimeError => "RuntimeError"
  end.

(** Dictionary lookup by key, on the insertion-ordered representation. *)
Fixpoint dict_get (kv : list (string * value)) (k : string) : option value :=
  match kv with
  | [] => None
  | (k', v) :: kv' => if String.eqb k' k then Some v else dict_get kv' k
  end.

(** [d[k] = v]: an existing key keeps its position. *)
Fixpoint dict_set (kv : list (string * value)) (k : string) (v : value)
  : list (string * value) :=
  match kv with
  | [] => [(k, v)]
  | (k', v') :: kv' =>
      if String.eqb k' k then (k', v) :: kv' else (k', v') :: dict_set kv' k v
  end.

Fixpoint is_prefix (p s : string) : bool :=
  match p, s with
  | EmptyString, _ => true
  | String a p', String b s' => Ascii.eqb a b && is_prefix p' s'
  | String _ _, EmptyString => false
  end.

(** [sub in s] on Python strings. *)
Fixpoint is_substring (sub s : string) : bool :=
  is_prefix sub s ||
  match s with
  | EmptyString => false
  | String _ s' => is_substring sub s'
  end.

(** [x == "list"] *)
Definition is_str (k : string) (x : value) : bool :=
  match x with
  | PStr s => String.eqb s k
  | _ => false
  end.

(** [k in items] for a string [k]: key membership on a dict, element
    membership on a list, substring on a string; [TypeError] ("argument of
    type ... is not iterable") on everything else. *)
Definition py_contains (k : string) (items : value) : outcome bool :=
  match items with
  | PDict kv => Ret (bool_decide (is_Some (dict_get kv k)))
  | PList l => Ret (existsb (is_str k) l)
  | PStr s => Ret (is_substring k s)
  | _ => Raise TypeError
  end.

(** [items[k]] for a string [k]: [KeyError] on a dict without the key,
    [TypeError] on lists and strings (indices must be integers) and on
    the values that are not subscriptable. *)
Definition py_getitem (items : value) (k : string) : outcome value :=
  match items with
  | PDict kv => match dict_get kv k with
                | Some v => Ret v
                | None => Raise KeyError
                end
  | _ => Raise TypeError
  end.

(** Truth value of [if items:]. *)
Definition py_truthy (v : value) : bool :=
  match v with
  | PNone => false
  | PBool b => b
  | PInt z => negb (z =? 0)%Z
  | PFloat m _ => negb (m =? 0)%Z
  | PStr s => negb (String.eqb s "")
  | PList l => negb (Nat.eqb (length l) 0)
  | PDict kv => negb (Nat.eqb (length kv) 0)
  end.

(** [range(start, stop, step)] *)
Definition py_range (start stop step : Z) : outcome (list Z) :=
  if (step =? 0)%Z then Raise ValueError
  else if (0 <? step)%Z then
    Ret ((λ k, start + k * step)%Z <$> seqZ 0 ((stop - start + step - 1) / step))
  else
    Ret ((λ k, start + k * step)%Z <$> seqZ 0 ((start - stop - step - 1) / (- step))).

(** [l[a:b]] for [0 <= a]; the stages slice with no negative index. *)
Definition py_slice {A} (l : list A) (a b : Z) : list A :=
  take (Z.to_nat (b - a)) (drop (Z.to_nat a) l).

(** ** pandas frames *)

(** A cell holds a Python value or is missing ([None] here is pandas'
    [NaN]).  pandas may store an integer of a column with missing entries
    as the float of the same value; the model keeps the value. *)
Definition cell := option value.

Record DataFrame : Type := mkDataFrame {
  columns : list string;
  rows : list (list cell);
}.

(** [len(df)] *)
Definition df_len (df : DataFrame) : Z := Z.of_nat (length (rows df)).

Definition str_mem (k : string) (ks : list string) : bool :=
  existsb (String.eqb k) ks.

(** Union of column names, in order of first appearance. *)
Definition add_columns (acc new : list string) : list string :=
  fold_left (λ a k, if str_mem k a then a else a ++ [k]) new acc.

Definition union_columns (ls : list (list string)) : list string :=
  fold_left add_columns ls [].

(** A record (a JSON object) read in the schema [cols]: the value of each
    key, missing where the record has no such key. *)
Definition record_row (cols : list string) (rec : list (string * value))
  : list cell :=
  (λ k, dict_get rec k) <$> cols.

Definition as_record (v : value) : option (list (string * value)) :=
  match v with
  | PDict kv => Some kv
  | _ => None
  end.

(** [pd.DataFrame(records)] for a list of dicts: one row per record, the
    columns being the keys of the records in order of first appearance. *)
Definition DataFrame_of_records (recs : list (list (string * value)))
  : DataFrame :=
  let cols := union_columns ((λ r, r.*1) <$> recs) in
  mkDataFrame cols (record_row cols <$> recs).

(** Position of a column name. *)
Fixpoint col_index (k : string) (cols : list string) : option nat :=
  match cols with
  | [] => None
  | c :: cols' => if String.eqb c k then Some 0%nat
                  else S <$> col_index k cols'
  end.

(** A row of a frame with columns [from] read in the schema [to]. *)
Definition reindex_row (from to : list string) (r : list cell) : list cell :=
  (λ k, match col_index k from with
        | Some i => default None (r !! i)
        | None => None
        end) <$> to.

(** The union of the columns of the frames (outer join, order of first
    appearance) and every row read in it. *)
Definition concat_frames (dfs : list DataFrame) : DataFrame :=
  let cols := union_columns (columns <$> dfs) in
  mkDataFrame cols
    (concat ((λ df, reindex_row (columns df) cols <$> rows df) <$> dfs)).

(** [pd.concat(frames, ignore_index=True)]; [ValueError] ("No objects to
    concatenate") on the empty list. *)
Definition pd_concat (dfs : list DataFrame) : outcome DataFrame :=
  match dfs with
  | [] => Raise ValueError
  | _ :: _ => Ret (concat_frames dfs)
  end.

(** ** The world the stages run in *)

Inductive level : Type := Debug | Info | Success | Warning | Error.

(** What the file system holds at a path.  A CSV file is kept as its
    lines of fields and a Parquet file as the frame written to it: the
    byte encodings of the two formats are not modelled. *)
Inductive node : Type :=
| Dir
| File (data : bytes)
| CsvFile (lines : list (list string))
| ParquetFile (compression : option string) (df : DataFrame).

Inductive csv_mode : Type := ModeW | ModeA.

Inductive event : Type :=
| EvLog (lvl : level) (msg : string)
| EvMkdir (path : string)
| EvSleep (seconds : Z)
| EvTotalPages (params : gmap string string)
| EvFetch (params : gmap string string)
| EvOpenWb (path : string)
| EvWrite (path : string) (data : bytes)
| EvToCsv (path : string) (mode : csv_mode) (header : bool) (df : DataFrame)
| EvToParquet (path : string) (compression : option string) (df : DataFrame)
| EvGcCollect.

(** [FETCHER_BASE_PARAMS] is the one dictionary object that
    [config.py] creates; every name bound to it ([params] in [pull]) is
    the same object, so it lives in the store. *)
Record Store : Type := mkStore {
  fs : gmap string node;
  FETCHER_BASE_PARAMS : gmap string string;
}.

Record Run (A : Type) : Type := mkRun {
  out : outcome A;
  store : Store;
  events : list event;
}.
Arguments mkRun {A} out store events.
Arguments out {A} r.
Arguments store {A} r.
Arguments events {A} r.

Definition M (A : Type) : Type := Store → Run A.

Definition ret {A} (a : A) : M A := λ s, mkRun (Ret a) s [].

Definition raise {A} (e : exn) : M A := λ s, mkRun (Raise e) s [].

Definition bind {A B} (c : M A) (k : A → M B) : M B := λ s,
  let r := c s in
  match out r with
  | Ret a => let r' := k a (store r) in
             mkRun (out r') (store r') (events r ++ events r')
  | Raise e => mkRun (Raise e) (store r) (events r)
  end.

(** [try: c  except Exception as e: h e], restricted by [handles] to the
    classes the [except] clause names. *)
Definition try_except {A} (c : M A) (handles : exn → bool) (h : exn → M A)
  : M A := λ s,
  let r := c s in
  match out r with
  | Ret a => r
  | Raise e =>
      if handles e then
        let r' := h e (store r) in
        mkRun (out r') (store r') (events r ++ events r')
      else r
  end.

Definition lift {A} (o : outcome A) : M A := λ s, mkRun o s [].

Definition emit (e : event) : M unit := λ s, mkRun (Ret tt) s [e].

Declare Scope run_scope.
Delimit Scope run_scope with run.
Notation "x ← c ; k" := (bind c (λ x, k))
  (at level 20, c at level 100, k at level 200, only parsing) : run_scope.
Notation "c ;; k" := (bind c (λ _, k))
  (at level 100, k at level 200, right associativity) : run_scope.
Local Open Scope run_scope.

(** [for x in l: body x] *)
Fixpoint for_each {A} (body : A → M unit) (l : list A) : M unit :=
  match l with
  | [] => ret tt
  | x :: l' => body x;; for_each body l'
  end.

(** A loop that threads the local variables [st] of its body. *)
Fixpoint for_fold {A S} (body : S → A → M S) (st : S) (l : list A) : M S :=
  match l with
  | [] => ret st
  | x :: l' => st' ← body st x; for_fold body st' l'
  end.

Definition log (lvl : level) (msg : string) : M unit := emit (EvLog lvl msg).

(** [Path.exists()] *)
Definition path_exists (p : string) : M bool := λ s,
  mkRun (Ret (bool_decide (is_Some (fs s !! p)))) s [].

(** [Path.mkdir(parents=True, exist_ok=True)]: nothing to do on a
    directory, [FileExistsError] on anything else that is there. *)
Definition mkdir (p : string) : M unit := λ s,
  match fs s !! p with
  | None => mkRun (Ret tt)
              (mkStore (<[p := Dir]> (fs s)) (FETCHER_BASE_PARAMS s))
              [EvMkdir p]
  | Some Dir => mkRun (Ret tt) s [EvMkdir p]
  | Some _ => mkRun (Raise FileExistsError) s [EvMkdir p]
  end.

(** [open(p, "wb")]: the file is created, or truncated, at once.  A
    write replaces what is at the path; of the failures of the file
    system the model has those of [mkdir] and of reading. *)
Definition open_wb (p : string) : M unit := λ s,
  mkRun (Ret tt) (mkStore (<[p := File []]> (fs s)) (FETCHER_BASE_PARAMS s))
    [EvOpenWb p].

(** [f.write(data)] on the file just opened. *)
Definition file_write (p : string) (data : bytes) : M unit := λ s,
  mkRun (Ret tt) (mkStore (<[p := File data]> (fs s)) (FETCHER_BASE_PARAMS s))
    [EvWrite p data].

(** [params[k] = v] on the shared dictionary. *)
Definition params_setitem (k v : string) : M unit := λ s,
  mkRun (Ret tt) (mkStore (fs s) (<[k := v]> (FETCHER_BASE_PARAMS s))) [].

Definition sleep (seconds : Z) : M unit := emit (EvSleep seconds).

(** ** The libraries *)

(** Modelled from the spec: [drudid.fetcher.Fetcher] is not among the
    sources.  What [fetcher.fetch_data] returns is "either a successful
    payload or a failure marker"; [pull] tells them apart with
    [isinstance(response, httpx.Response)], so the payload is a response,
    kept here as its body. *)
Inductive fetch_result : Type :=
| Response (content : bytes)
| NoResponse.

(** The environment of the pipeline: the value of the settings that
    [config.py] reads from outside, and the behaviour of the libraries.
    Nothing is assumed of a library beyond its type.  Of the project's
    [Fetcher], which is not among the sources, the specification says
    that [fetch_data] "returns either a parsed payload or a failure
    signal" and "performs no retries itself", and that [get_total_pages]
    "queries the source for pagination metadata" and returns an integer;
    both are given the request parameters by the caller. *)
Record Env : Type := mkEnv {
  (** [Path(__file__).resolve().parents[1]] *)
  PROJ_ROOT : string;
  (** truth value of [os.getenv("DEV_MODE", True)] *)
  DEV_MODE : bool;
  fetch_data : gmap string string → fetch_result;
  get_total_pages : gmap string string → Z;
  (** [httpx.Response.json], on the body of the response *)
  response_json : bytes → outcome value;
  orjson_dumps : value → outcome bytes;
  orjson_loads : bytes → outcome value;
  (** the order in which the directory entries are enumerated *)
  listdir : gmap string node → list string;
  (** [pd.DataFrame(items)] where [items] is not a list of dicts *)
  DataFrame_other : value → outcome DataFrame;
  (** [str(v)] for a value that is not a string; also the text that
      [to_csv] writes for it *)
  py_str : value → string;
  (** the lines of fields [read_csv] finds in a file of raw bytes *)
  csv_tokenize : bytes → outcome (list (list string));
  (** whether [read_csv] takes a field for a missing value *)
  is_na : string → bool;
  (** the column names [read_csv] makes of a header line: a name that
      occurs again is renamed *)
  mangle_dupe_cols : list string → list string;
  (** whether [Series.astype(str)] fails on a column *)
  astype_str_error : list cell → option exn;
  (** whether [to_parquet] fails, with snappy compression and with the
      fallback settings *)
  to_parquet_error : DataFrame → option exn;
  to_parquet_fallback_error : DataFrame → option exn;
}.

(** ** Configuration ([config.py]) *)

Definition DATA_DIR (E : Env) : string := PROJ_ROOT E +:+ "/data".
Definition RAW_DATA_DIR (E : Env) : string := DATA_DIR E +:+ "/raw".
Definition INTERIM_DATA_DIR (E : Env) : string := DATA_DIR E +:+ "/interim".
Definition FETCHER_BASE_URL : string := "https://www.drupal.org/api-d7".

(** The dictionary [FETCHER_BASE_PARAMS] as [config.py] creates it. *)
Definition FETCHER_BASE_PARAMS_init : gmap string string :=
  <["direction" := "ASC"]>
    (<["sort" := "created"]>
      (<["type" := "project_issue"]>
        (<["resource" := "node.json"]> ∅))).

(** ** The pull stage *)

(** [dataset_dir / f"page_{i}.json"] *)
Definition page_path (E : Env) (i : Z) : string :=
  RAW_DATA_DIR E +:+ "/page_" +:+ pretty i +:+ ".json".

(** [fetcher.fetch_data(params)]: the argument is the shared dictionary. *)
Definition Fetcher_fetch_data (E : Env) : M fetch_result := λ s,
  mkRun (Ret (fetch_data E (FETCHER_BASE_PARAMS s))) s
    [EvFetch (FETCHER_BASE_PARAMS s)].

(** [fetcher.get_total_pages(params)] *)
Definition Fetcher_get_total_pages (E : Env) : M Z := λ s,
  mkRun (Ret (get_total_pages E (FETCHER_BASE_PARAMS s))) s
    [EvTotalPages (FETCHER_BASE_PARAMS s)].

(** [f"Skipping page {i} (use --force to overwrite)."] *)
Definition skip_msg (i : Z) : string :=
  "Skipping page " +:+ pretty i +:+ " (use --force to overwrite).".

(** [f"Page {i} saved to {file_path}"] *)
Definition saved_msg (E : Env) (i : Z) : string :=
  "Page " +:+ pretty i +:+ " saved to " +:+ page_path E i.

(** The body of the loop of [pull], lines 96-110. *)
Definition pull_page (E : Env) (force : bool) (i : Z) : M unit :=
  let file_path := page_path E i in
  ex ← path_exists file_path;
  if ex && negb force then log Info (skip_msg i)
  else
    params_setitem "page" (pretty i);;
    sleep 1;;
    response ← Fetcher_fetch_data E;
    match response with
    | Response content =>
        open_wb file_path;;
        doc ← lift (response_json E content);
        data ← lift (orjson_dumps E doc);
        file_write file_path data;;
        log Success (saved_msg E i)
    | NoResponse => ret tt
    end.

Definition retrieving_msg : string :=
  "Retrieving data from " +:+ FETCHER_BASE_URL.

Definition range_error_msg : string :=
  "End page must be greater than start page".

(** [f"Total {total_pages} pages to process"] *)
Definition total_msg (total_pages : Z) : string :=
  "Total " +:+ pretty total_pages +:+ " pages to process".

(** Lines 81-90: the end of the range, or [None] when [pull] returns. *)
Definition pull_end_page (E : Env) (start_page : Z) (end_page : option Z)
  : M (option Z) :=
  match end_page with
  | Some e =>
      if (e <=? start_page)%Z then
        log Error range_error_msg;;
        ret None
      else ret (Some e)
  | None =>
      if DEV_MODE E then ret (Some (start_page + 1)%Z)
      else (n ← Fetcher_get_total_pages E; ret (Some n))
  end.

(** [pull]: [params] is another name of [FETCHER_BASE_PARAMS]; the
    construction [Fetcher()] has no effect of its own. *)
Definition pull (E : Env) (start_page : Z) (end_page : option Z)
    (force : bool) : M unit :=
  log Info retrieving_msg;;
  mkdir (RAW_DATA_DIR E);;
  r ← pull_end_page E start_page end_page;
  match r with
  | None => ret tt
  | Some end_page =>
      let total_pages := (end_page - start_page)%Z in
      log Info (total_msg total_pages);;
      for_each (pull_page E force) (seqZ start_page (end_page - start_page))
  end.

(** ** The merge stage *)

Fixpoint strip_prefix (p s : string) : option string :=
  match p, s with
  | EmptyString, _ => Some s
  | String a p', String b s' =>
      if Ascii.eqb a b then strip_prefix p' s' else None
  | String _ _, EmptyString => None
  end.

Fixpoint ends_with (suffix s : string) : bool :=
  String.eqb s suffix ||
  match s with
  | EmptyString => false
  | String _ s' => ends_with suffix s'
  end.

Fixpoint has_char (c : ascii) (s : string) : bool :=
  match s with
  | EmptyString => false
  | String a s' => Ascii.eqb a c || has_char c s'
  end.

(** Whether a path matches [RAW_DATA_DIR / "*.json"]: an entry of the
    directory itself, not hidden, whose name ends in [.json]. *)
Definition glob_match_json (E : Env) (p : string) : bool :=
  match strip_prefix (RAW_DATA_DIR E +:+ "/") p with
  | Some name =>
      ends_with ".json" name && negb (has_char "/" name)
      && negb (is_prefix "." name)
  | None => false
  end.

(** [glob.glob(str(RAW_DATA_DIR / "*.json"))]: the matching entries, in the
    order the directory is enumerated. *)
Definition glob_json (E : Env) (s : Store) : list string :=
  List.filter
    (λ p, glob_match_json E p && bool_decide (is_Some (fs s !! p)))
    (listdir E (fs s)).

Definition glob (E : Env) : M (list string) := λ s,
  mkRun (Ret (glob_json E s)) s [].

(** [open(p, "rb").read()].  The bytes of a CSV or Parquet file are not
    modelled; such a file is no JSON document, and reading it as a page
    ends in the error [orjson.loads] raises on it. *)
Definition read_bytes (s : Store) (p : string) : outcome bytes :=
  match fs s !! p with
  | None => Raise FileNotFoundError
  | Some Dir => Raise IsADirectoryError
  | Some (File data) => Ret data
  | Some (CsvFile _) | Some (ParquetFile _ _) => Raise JSONDecodeError
  end.

Definition read_file (p : string) : M bytes := λ s,
  mkRun (read_bytes s p) s [].

(** [pd.DataFrame(items)] *)
Definition pd_DataFrame (E : Env) (items : value) : outcome DataFrame :=
  match items with
  | PList l =>
      match mapM as_record l with
      | Some recs => Ret (DataFrame_of_records recs)
      | None => DataFrame_other E items
      end
  | _ => DataFrame_other E items
  end.

(** The text of a cell in a CSV line: empty for a missing value. *)
Definition csv_field (E : Env) (c : cell) : string :=
  match c with
  | None | Some PNone => ""
  | Some (PStr t) => t
  | Some v => py_str E v
  end.

(** [df.to_csv(path, index=False, mode=mode, header=header)].  Mode ["w"]
    replaces the file; mode ["a"] appends to the CSV file at the path, and
    starts a file where there is none. *)
Definition to_csv (E : Env) (df : DataFrame) (path : string)
    (mode : csv_mode) (header : bool) : M unit := λ s,
  let old := match mode, fs s !! path with
             | ModeA, Some (CsvFile lines) => lines
             | _, _ => []
             end in
  let new := (if header then [columns df] else [])
             ++ ((λ r : list cell, csv_field E <$> r) <$> rows df) in
  mkRun (Ret tt)
    (mkStore (<[path := CsvFile (old ++ new)]> (fs s)) (FETCHER_BASE_PARAMS s))
    [EvToCsv path mode header df].

(** The body of the inner loop of [merge], lines 149-164, as a function of
    the list [chunk_dataframes] it appends to. *)
Definition merge_file (E : Env) (chunk_dataframes : list DataFrame)
    (file : string) : M (list DataFrame) :=
  try_except
    (data ← read_file file;
     items ← lift (orjson_loads E data);
     has_list ← lift (py_contains "list" items);
     if has_list : bool then
       items ← lift (py_getitem items "list");
       if py_truthy items then
         df ← lift (pd_DataFrame E items);
         ret (chunk_dataframes ++ [df])
       else ret chunk_dataframes
     else
       log Warning ("Unexpected JSON structure in " +:+ file);;
       ret chunk_dataframes)
    (λ _, true)
    (λ e,
       log Error ("Error processing " +:+ file +:+ ": " +:+ exn_name e);;
       ret chunk_dataframes).

(** The body of the outer loop, lines 144-185, as a function of the locals
    [first_chunk] and [total_rows]. *)
Definition merge_chunk (E : Env) (files : list string) (chunk_size : Z)
    (output_file : string) (st : bool * Z) (chunk_start : Z) : M (bool * Z) :=
  let first_chunk := st.1 in
  let total_rows := st.2 in
  let chunk_files := py_slice files chunk_start (chunk_start + chunk_size) in
  chunk_dataframes ← for_fold (merge_file E) [] chunk_files;
  st' ← match chunk_dataframes with
        | [] => ret (first_chunk, total_rows)
        | _ :: _ =>
            chunk_df ← lift (pd_concat chunk_dataframes);
            let total_rows := (total_rows + df_len chunk_df)%Z in
            if first_chunk then
              to_csv E chunk_df output_file ModeW true;;
              log Info ("Created output file with "
                        +:+ pretty (df_len chunk_df) +:+ " rows");;
              ret (false, total_rows)
            else
              to_csv E chunk_df output_file ModeA false;;
              log Info ("Appended " +:+ pretty (df_len chunk_df)
                        +:+ " rows (total: " +:+ pretty total_rows +:+ ")");;
              ret (first_chunk, total_rows)
        end;
  emit EvGcCollect;;
  ret st'.

Definition merged_csv (E : Env) : string := INTERIM_DATA_DIR E +:+ "/merged.csv".

Definition merge_done_msg (E : Env) (total_rows : Z) : string :=
  "Merged dataset saved to " +:+ merged_csv E +:+ " with "
  +:+ pretty total_rows +:+ " total rows".

Definition merge (E : Env) (chunk_size : Z) : M unit :=
  log Info ("Merging dataset (chunk size: " +:+ pretty chunk_size +:+ ")");;
  files ← glob E;
  let total_files := Z.of_nat (length files) in
  log Info ("Found " +:+ pretty total_files +:+ " files to merge");;
  match files with
  | [] => log Warning "No files found to merge"
  | _ :: _ =>
      let output_file := merged_csv E in
      starts ← lift (py_range 0 total_files chunk_size);
      st ← for_fold (merge_chunk E files chunk_size output_file) (true, 0%Z)
             starts;
      log Success (merge_done_msg E st.2)
  end.

(** ** The convert stage *)

(** The rows of a table in groups of [n], as [read_csv(chunksize=n)]
    hands them out. *)
Fixpoint chunked_go {A} (fuel n : nat) (l : list A) : list (list A) :=
  match fuel, l with
  | O, _ | _, [] => []
  | S fuel', _ :: _ => take n l :: chunked_go fuel' n (drop n l)
  end.

Definition chunked {A} (n : nat) (l : list A) : list (list A) :=
  chunked_go (length l) n l.

(** A line of fields read with [dtype=str] and [on_bad_lines="skip"] into
    [ncols] columns: a line with too many fields is skipped, a short one
    is filled with missing values, and a field that [read_csv] takes for
    a missing value is missing. *)
Definition csv_row_cells (E : Env) (ncols : nat) (fields : list string)
  : option (list cell) :=
  if (ncols <? length fields)%nat then None
  else Some (((λ f, if is_na E f then None else Some (PStr f)) <$> fields)
             ++ replicate (ncols - length fields) None).

(** The lines of fields of the file at a path, as [read_csv] finds them. *)
Definition csv_lines (E : Env) (s : Store) (p : string)
  : outcome (list (list string)) :=
  match fs s !! p with
  | None => Raise FileNotFoundError
  | Some Dir => Raise IsADirectoryError
  | Some (CsvFile lines) => Ret lines
  | Some (File data) => csv_tokenize E data
  | Some (ParquetFile _ _) => Raise ValueError
  end.

(** The chunks that iterating [pd.read_csv(input_file, low_memory=False,
    chunksize=chunk_size, on_bad_lines="skip", dtype=str)] yields.  The
    first line is the header; a table with no row yields one empty
    chunk. *)
Definition read_csv_frames (E : Env) (chunk_size : Z)
    (lines : list (list string)) : outcome (list DataFrame) :=
  match lines with
  | [] => Raise EmptyDataError
  | header :: lines' =>
      let names := mangle_dupe_cols E header in
      match omap (csv_row_cells E (length names)) lines' with
      | [] => Ret [mkDataFrame names []]
      | (_ :: _) as rs =>
          Ret (mkDataFrame names <$> chunked (Z.to_nat chunk_size) rs)
      end
  end.

Definition read_csv (E : Env) (input_file : string) (chunk_size : Z)
  : M (list DataFrame) := λ s,
  if (chunk_size <? 1)%Z then mkRun (Raise ValueError) s []
  else
    match csv_lines E s input_file with
    | Raise e => mkRun (Raise e) s []
    | Ret lines => mkRun (read_csv_frames E chunk_size lines) s []
    end.

(** [str(x)] *)
Definition str_of (E : Env) (v : value) : string :=
  match v with
  | PStr t => t
  | _ => py_str E v
  end.

(** [lambda x: str(x) if pd.notna(x) else ""] *)
Definition fill_missing (E : Env) (c : cell) : cell :=
  match c with
  | None | Some PNone => Some (PStr "")
  | Some v => Some (PStr (str_of E v))
  end.

(** The value of [astype(str)] on a cell: a missing value becomes the
    text ["nan"]. *)
Definition astype_str_cell (E : Env) (c : cell) : cell :=
  match c with
  | None => Some (PStr "nan")
  | Some v => Some (PStr (str_of E v))
  end.

(** [lambda x: str(x) if x is not None else ""] *)
Definition fill_none (E : Env) (c : cell) : cell :=
  match c with
  | None => Some (PStr "nan")
  | Some PNone => Some (PStr "")
  | Some v => Some (PStr (str_of E v))
  end.

(** [df[col]], by position *)
Definition df_get_col (df : DataFrame) (j : nat) : list cell :=
  (λ r : list cell, default None (r !! j)) <$> rows df.

(** [df[col] = values], by position *)
Definition df_set_col (df : DataFrame) (j : nat) (values : list cell)
  : DataFrame :=
  mkDataFrame (columns df)
    (zip_with (λ (r : list cell) c, <[j := c]> r) (rows df) values).

(** [row[j] = f(row[j])] on one row. *)
Definition update_cell (f : cell → cell) (j : nat) (r : list cell)
  : list cell :=
  <[j := f (default None (r !! j))]> r.

(** [for col in df.columns: df[col] = f(df[col])] for a total [f] *)
Definition map_columns (f : cell → cell) (df : DataFrame) : DataFrame :=
  fold_left (λ d j, df_set_col d j (f <$> df_get_col d j))
    (seq 0 (length (columns df))) df.

(** Lines 46-60. *)
Definition load_large_csv_to_pd (E : Env) (input_file : string)
    (chunk_size : Z) : M DataFrame :=
  chunks ← read_csv E input_file chunk_size;
  let chunk_list := map_columns (fill_missing E) <$> chunks in
  lift (pd_concat chunk_list).

(** [df[col].astype(str)] *)
Definition astype_str (E : Env) (values : list cell) : outcome (list cell) :=
  match astype_str_error E values with
  | Some e => Raise e
  | None => Ret (astype_str_cell E <$> values)
  end.

(** The body of the loop of lines 216-221. *)
Definition convert_column (E : Env) (df : DataFrame) (col : nat * string)
  : M DataFrame :=
  try_except
    (values ← lift (astype_str E (df_get_col df col.1));
     ret (df_set_col df col.1 values))
    (λ _, true)
    (λ e,
       log Warning ("Issue converting column '" +:+ col.2 +:+ "': "
                    +:+ exn_name e);;
       ret (df_set_col df col.1 (fill_none E <$> df_get_col df col.1))).

(** [df.to_parquet(path, index=False, engine="pyarrow", ...)]; [error]
    tells whether the write fails.  A failed write leaves no file. *)
Definition to_parquet (error : DataFrame → option exn) (df : DataFrame)
    (path : string) (compression : option string) : M unit := λ s,
  match error df with
  | Some e => mkRun (Raise e) s [EvToParquet path compression df]
  | None =>
      mkRun (Ret tt)
        (mkStore (<[path := ParquetFile compression df]> (fs s))
           (FETCHER_BASE_PARAMS s))
        [EvToParquet path compression df]
  end.

Definition merged_parquet (E : Env) : string :=
  RAW_DATA_DIR E +:+ "/merged.parquet".

(** Lines 210-242: the body of the [try] of [convert]. *)
Definition convert_body (E : Env) (chunk_size : Z) : M unit :=
  log Info "Converting dataset to Parquet format";;
  df ← load_large_csv_to_pd E (merged_csv E) chunk_size;
  log Info ("Successfully loaded " +:+ pretty (df_len df) +:+ " rows");;
  log Debug "Converting all columns to string";;
  df ← for_fold (convert_column E) df (imap pair (columns df));
  try_except
    (to_parquet (to_parquet_error E) df (merged_parquet E) (Some "snappy");;
     log Success "Dataset converted to parquet")
    is_import_value_os_error
    (λ parquet_error,
       log Error ("Parquet conversion error: " +:+ exn_name parquet_error);;
       to_parquet (to_parquet_fallback_error E) df (merged_parquet E) None;;
       log Success "Dataset converted to parquet with fallback settings").

Definition convert (E : Env) (chunk_size : Z) : M unit :=
  mkdir (INTERIM_DATA_DIR E);;
  mkdir (RAW_DATA_DIR E);;
  try_except (convert_body E chunk_size)
    (λ _, true)
    (λ e, log Error ("Conversion failed: " +:+ exn_name e)).

(** ** A concrete environment *)

(** To run the stages on concrete inputs the libraries are instantiated.
    JSON is read and written on the fragment without fractional numbers
    and without escape sequences in the text to read; [orjson.dumps]
    writes the compact form, with no white space. *)
Module Json.
Local Close Scope run_scope.

Definition is_ws (c : ascii) : bool :=
  Ascii.eqb c " " || Ascii.eqb c "009" || Ascii.eqb c "010" || Ascii.eqb c "013".

Fixpoint skip_ws (s : string) : string :=
  match s with
  | String c s' => if is_ws c then skip_ws s' else s
  | EmptyString => s
  end.

(** The characters of a string literal up to its closing quote. *)
Fixpoint parse_chars (s : string) : option (string * string) :=
  match s with
  | EmptyString => None
  | String c s' =>
      if Ascii.eqb c "034" then Some (EmptyString, s')
      else if Ascii.eqb c "092" || (nat_of_ascii c <? 32)%nat then None
      else '(t, r) ← parse_chars s'; Some (String c t, r)
  end.

Definition digit (c : ascii) : option Z :=
  let n := nat_of_ascii c in
  if (48 <=? n)%nat && (n <=? 57)%nat then Some (Z.of_nat (n - 48)) else None.

Fixpoint parse_digits (acc : Z) (s : string) : Z * string :=
  match s with
  | String c s' =>
      match digit c with
      | Some d => parse_digits (10 * acc + d) s'
      | None => (acc, s)
      end
  | EmptyString => (acc, s)
  end.

(** A number with no fraction and no exponent. *)
Definition parse_nat (s : string) : option (Z * string) :=
  match s with
  | String c s' =>
      match digit c with
      | Some 0%Z =>
          match s' with
          | String c' _ =>
              match digit c' with
              | Some _ => None
              | None => Some (0%Z, s')
              end
          | EmptyString => Some (0%Z, s')
          end
      | Some d => Some (parse_digits d s')
      | None => None
      end
  | EmptyString => None
  end.

Definition no_fraction (r : string) : bool :=
  match r with
  | String c _ => negb (Ascii.eqb c "." || Ascii.eqb c "e" || Ascii.eqb c "E")
  | EmptyString => true
  end.

Definition parse_int (s : string) : option (value * string) :=
  '(z, r) ← match s with
            | String "-" s' => '(n, r) ← parse_nat s'; Some ((- n)%Z, r)
            | _ => parse_nat s
            end;
  if no_fraction r then Some (PInt z, r) else None.

Fixpoint parse_value (fuel : nat) (s : string) : option (value * string) :=
  match fuel with
  | O => None
  | S fuel' =>
      match skip_ws s with
      | String "n" r => r' ← strip_prefix "ull" r; Some (PNone, r')
      | String "t" r => r' ← strip_prefix "rue" r; Some (PBool true, r')
      | String "f" r => r' ← strip_prefix "alse" r; Some (PBool false, r')
      | String "034" r => '(t, r') ← parse_chars r; Some (PStr t, r')
      | String "[" r =>
          match skip_ws r with
          | String "]" r' => Some (PList [], r')
          | r' => '(l, r'') ← parse_elements fuel' r'; Some (PList l, r'')
          end
      | String "{" r =>
          match skip_ws r with
          | String "}" r' => Some (PDict [], r')
          | r' =>
              '(kv, r'') ← parse_members fuel' r';
              Some (PDict (fold_left (λ d m, dict_set d m.1 m.2) kv []), r'')
          end
      | s' => parse_int s'
      end
  end
with parse_elements (fuel : nat) (s : string)
  : option (list value * string) :=
  match fuel with
  | O => None
  | S fuel' =>
      '(v, r) ← parse_value fuel' s;
      match skip_ws r with
      | String "," r' => '(l, r'') ← parse_elements fuel' r'; Some (v :: l, r'')
      | String "]" r' => Some ([v], r')
      | _ => None
      end
  end
with parse_members (fuel : nat) (s : string)
  : option (list (string * value) * string) :=
  match fuel with
  | O => None
  | S fuel' =>
      match skip_ws s with
      | String "034" r =>
          '(k, r1) ← parse_chars r;
          match skip_ws r1 with
          | String ":" r2 =>
              '(v, r3) ← parse_value fuel' r2;
              match skip_ws r3 with
              | String "," r4 =>
                  '(kv, r5) ← parse_members fuel' r4; Some ((k, v) :: kv, r5)
              | String "}" r4 => Some ([(k, v)], r4)
              | _ => None
              end
          | _ => None
          end
      | _ => None
      end
  end.

(** [orjson.loads(data)] *)
Definition loads (data : bytes) : outcome value :=
  let s := string_of_list_byte data in
  match parse_value (2 * String.length s + 2) s with
  | Some (v, r) =>
      match skip_ws r with
      | EmptyString => Ret v
      | _ => Raise JSONDecodeError
      end
  | None => Raise JSONDecodeError
  end.

Fixpoint escape (s : string) : option string :=
  match s with
  | EmptyString => Some EmptyString
  | String c s' =>
      t ← escape s';
      if Ascii.eqb c "034" then Some (String "092" (String "034" t))
      else if Ascii.eqb c "092" then Some (String "092" (String "092" t))
      else if (nat_of_ascii c <? 32)%nat then None
      else Some (String c t)
  end.

Definition quote (s : string) : option string :=
  t ← escape s; Some (String "034" (t +:+ String "034" EmptyString)).

Fixpoint join (sep : string) (l : list string) : string :=
  match l with
  | [] => ""
  | [x] => x
  | x :: l' => x +:+ sep +:+ join sep l'
  end.

(** The compact text of a value; nothing for a float, for text with a
    control character, and for an integer outside the 64-bit range. *)
Fixpoint encode (v : value) : option string :=
  match v with
  | PNone => Some "null"
  | PBool true => Some "true"
  | PBool false => Some "false"
  | PInt z =>
      if (- 2 ^ 63 <=? z)%Z && (z <? 2 ^ 64)%Z then Some (pretty z) else None
  | PFloat _ _ => None
  | PStr t => quote t
  | PList l =>
      ts ← (fix go (l : list value) : option (list string) :=
              match l with
              | [] => Some []
              | x :: l' => t ← encode x; ts ← go l'; Some (t :: ts)
              end) l;
      Some ("[" +:+ join "," ts +:+ "]")
  | PDict kv =>
      ts ← (fix go (kv : list (string * value)) : option (list string) :=
              match kv with
              | [] => Some []
              | (k, x) :: kv' =>
                  q ← quote k; t ← encode x; ts ← go kv';
                  Some ((q +:+ ":" +:+ t) :: ts)
              end) kv;
      Some ("{" +:+ join "," ts +:+ "}")
  end.

(** [orjson.dumps(v)] *)
Definition dumps (v : value) : outcome bytes :=
  match encode v with
  | Some t => Ret (list_byte_of_string t)
  | None => Raise TypeError
  end.

End Json.

(** pandas' default markers of a missing value in a CSV field. *)
Definition STR_NA_VALUES : list string :=
  [""; "#N/A"; "#N/A N/A"; "#NA"; "-1.#IND"; "-1.#QNAN"; "-NaN"; "-nan";
   "1.#IND"; "1.#QNAN"; "<NA>"; "N/A"; "NA"; "NULL"; "NaN"; "None"; "n/a";
   "nan"; "null"].

(** [str] of the scalars; the examples render no list and no dict. *)
Definition scalar_str (v : value) : string :=
  match v with
  | PNone => "None"
  | PBool true => "True"
  | PBool false => "False"
  | PInt z => pretty z
  | PStr t => t
  | _ => "<object>"
  end.

(** The renaming of repeated column names: the [n]-th repetition of
    [name] becomes [name.n], as long as that name is free. *)
Fixpoint fresh_name (fuel : nat) (seen : list string) (name : string)
    (n : nat) : string :=
  let candidate := name +:+ "." +:+ pretty n in
  match fuel with
  | O => candidate
  | S fuel' =>
      if str_mem candidate seen then fresh_name fuel' seen name (S n)
      else candidate
  end.

Definition dedup_names (names : list string) : list string :=
  fold_left
    (λ seen name,
       if str_mem name seen
       then seen ++ [fresh_name (length names) seen name 1]
       else seen ++ [name])
    names [].

(** The environment of the examples: a remote that answers [remote], a
    directory enumerated as [entries], libraries that do not fail. *)
Definition example_env (remote : gmap string string → fetch_result)
    (entries : list string) : Env :=
  {| PROJ_ROOT := "/srv/drudid";
     DEV_MODE := true;
     fetch_data := remote;
     get_total_pages := λ _, 0%Z;
     response_json := Json.loads;
     orjson_dumps := Json.dumps;
     orjson_loads := Json.loads;
     listdir := λ _, entries;
     DataFrame_other := λ _, Raise ValueError;
     py_str := scalar_str;
     csv_tokenize := λ _, Raise ValueError;
     is_na := λ f, str_mem f STR_NA_VALUES;
     mangle_dupe_cols := dedup_names;
     astype_str_error := λ _, None;
     to_parquet_error := λ _, None;
     to_parquet_fallback_error := λ _, None |}.

Definition utf8 (s : string) : bytes := list_byte_of_string s.

(** A text with the quotation mark (code 34) written as an apostrophe. *)
Fixpoint quoted (s : string) : string :=
  match s with
  | EmptyString => EmptyString
  | String c s' => String (if Ascii.eqb c "'" then "034"%char else c) (quoted s')
  end.

(** The bytes of a JSON text written that way. *)
Definition json_text (s : string) : bytes := utf8 (quoted s).

(** A store with the given files and the parameters of [config.py]. *)
Definition store_of (files : list (string * node)) : Store :=
  mkStore (list_to_map files) FETCHER_BASE_PARAMS_init.

(** ** Observations on a run *)

(** The parameter dictionaries handed to [fetch_data], in order. *)
Definition fetch_args (evs : list event) : list (gmap string string) :=
  omap (λ e, match e with EvFetch p => Some p | _ => None end) evs.

(** The files opened for writing, and the data written, in order. *)
Definition opened (evs : list event) : list string :=
  omap (λ e, match e with EvOpenWb p => Some p | _ => None end) evs.

Definition written (evs : list event) : list (string * bytes) :=
  omap (λ e, match e with EvWrite p d => Some (p, d) | _ => None end) evs.

(** The calls of [to_csv], in order. *)
Definition csv_writes (evs : list event)
  : list (string * csv_mode * bool * DataFrame) :=
  omap (λ e, match e with
             | EvToCsv p m h df => Some (p, m, h, df)
             | _ => None
             end) evs.

(** The frames handed to [to_parquet], in order. *)
Definition parquet_writes (evs : list event) : list DataFrame :=
  omap (λ e, match e with EvToParquet _ _ df => Some df | _ => None end) evs.

Definition is_log (e : event) : bool :=
  match e with
  | EvLog _ _ => true
  | _ => false
  end.



(** [mkdir(parents=True, exist_ok=True)] succeeds at [p]. *)
Definition mkdir_ok (p : string) (s : Store) : Prop :=
  fs s !! p = None ∨ fs s !! p = Some Dir.

(** The request for page [i], given the parameters [p0] of the start. *)
Definition page_request (p0 : gmap string string) (i : Z)
  : gmap string string :=
  <["page" := pretty i]> p0.

(** The end of the range [pull] settles on, given the parameters [p0]
    of the start; nothing when the range is refused. *)
Definition resolved_end_page (E : Env) (start_page : Z) (end_page : option Z)
    (p0 : gmap string string) : option Z :=
  match end_page with
  | Some e => if (e <=? start_page)%Z then None else Some e
  | None =>
      if DEV_MODE E then Some (start_page + 1)%Z
      else Some (get_total_pages E p0)
  end.

(** The indices the loop of [pull] goes through. *)
Definition pull_range (E : Env) (start_page : Z) (end_page : option Z)
    (p0 : gmap string string) : list Z :=
  match resolved_end_page E start_page end_page p0 with
  | Some e => seqZ start_page (e - start_page)
  | None => []
  end.

(** What [pull] persists of the answer to a request: the document of the
    response, serialised again; nothing when the fetch fails. *)
Definition persisted (E : Env) (p : gmap string string) : option bytes :=
  match fetch_data E p with
  | Response content =>
      match response_json E content with
      | Ret doc =>
          match orjson_dumps E doc with
          | Ret data => Some data
          | Raise _ => None
          end
      | Raise _ => None
      end
  | NoResponse => None
  end.

(** The document of a page file; nothing when the file cannot be read or
    parsed. *)
Definition page_doc (E : Env) (s : Store) (file : string) : option value :=
  match read_bytes s file with
  | Ret data =>
      match orjson_loads E data with
      | Ret doc => Some doc
      | Raise _ => None
      end
  | Raise _ => None
  end.

(** The field named [list] of a document. *)
Definition list_field (doc : value) : option value :=
  match doc with
  | PDict kv => dict_get kv "list"
  | _ => None
  end.




(** A page file that is skipped, or whose list is empty. *)
Definition skipped_or_empty (E : Env) (s : Store) (file : string) : Prop :=
  match page_doc E s file with
  | None => True
  | Some doc =>
      match list_field doc with
      | None => True
      | Some v => py_truthy v = false
      end
  end.

(** The frame that [merge_file] appends for a page file, if any. *)
Definition file_frame (E : Env) (s : Store) (file : string)
  : option DataFrame :=
  match page_doc E s file with
  | Some doc =>
      match list_field doc with
      | Some v =>
          if py_truthy v then
            match pd_DataFrame E v with
            | Ret df => Some df
            | Raise _ => None
            end
          else None
      | None => None
      end
  | None => None
  end.

(** The batches of files of a merge run. *)
Definition batch_files (files : list string) (chunk_size : Z)
  : list (list string) :=
  match py_range 0 (Z.of_nat (length files)) chunk_size with
  | Ret starts => (λ a, py_slice files a (a + chunk_size)) <$> starts
  | Raise _ => []
  end.

(** The table of a batch: the frames of its files concatenated; nothing
    for a batch none of whose files has a frame. *)
Definition batch_table (E : Env) (s : Store) (batch : list string)
  : option DataFrame :=
  match omap (file_frame E s) batch with
  | [] => None
  | (_ :: _) as dfs => Some (concat_frames dfs)
  end.

(** The tables of the batches that are not empty, in order. *)
Definition batch_tables (E : Env) (chunk_size : Z) (s : Store)
  : list DataFrame :=
  omap (batch_table E s) (batch_files (glob_json E s) chunk_size).

(** The number of rows of a list of tables. *)
Definition total_len (tables : list DataFrame) : Z :=
  Z.of_nat (sum_list_with (λ t, length (rows t)) tables).

(** One write with a header, then appends without one. *)
Definition header_then_appends (path : string) (tables : list DataFrame)
  : list (string * csv_mode * bool * DataFrame) :=
  match tables with
  | [] => []
  | t :: ts => (path, ModeW, true, t) :: ((λ d, (path, ModeA, false, d)) <$> ts)
  end.

(** The lines [to_csv] writes for the rows of a frame. *)
Definition data_lines (E : Env) (df : DataFrame) : list (list string) :=
  (λ r : list cell, csv_field E <$> r) <$> rows df.

(** A CSV line as [convert] reads it: the text of each field, empty for
    a missing value; nothing for a line that is skipped. *)
Definition csv_row_text (E : Env) (ncols : nat) (fields : list string)
  : option (list string) :=
  if (ncols <? length fields)%nat then None
  else Some (((λ f, if is_na E f then "" else f) <$> fields)
             ++ replicate (ncols - length fields) "").

(** The frame [convert] has in hand after reading a table, as a function
    of the lines of the table: the columns of the header, and every line
    that is kept as a row of text. *)
Definition text_frame (E : Env) (header : list string)
    (lines : list (list string)) : DataFrame :=
  let names := mangle_dupe_cols E header in
  mkDataFrame names
    ((λ r : list string, (λ t, Some (PStr t)) <$> r)
       <$> omap (csv_row_text E (length names)) lines).


(** The lines of a CSV file made of the tables: the header of the first
    and the rows of all. *)
Definition csv_of_tables (E : Env) (tables : list DataFrame)
  : list (list string) :=
  match tables with
  | [] => []
  | t :: ts => (columns t :: data_lines E t) ++ concat (data_lines E <$> ts)
  end.

(** The store in which the body of [convert] runs: the two data
    directories are there. *)
Definition after_setup (E : Env) (s : Store) : Store :=
  mkStore (<[RAW_DATA_DIR E := Dir]> (<[INTERIM_DATA_DIR E := Dir]> (fs s)))
    (FETCHER_BASE_PARAMS s).


(** ** Example inputs *)

Definition raw_dir : string := "/srv/drudid/data/raw".
Definition interim_dir : string := "/srv/drudid/data/interim".

(** A remote whose every page is the document [{"list": []}], sent with
    a space after the colon. *)
Definition spaced_remote : gmap string string → fetch_result :=
  λ _, Response (json_text "{'list': []}").

Definition a_json : string := "/srv/drudid/data/raw/a.json".
Definition b_json : string := "/srv/drudid/data/raw/b.json".

(** Two pages with different fields. *)
Definition two_pages : Store :=
  store_of [(a_json, File (json_text "{'list':[{'id':'1'}]}"));
            (b_json, File (json_text "{'list':[{'title':'x'}]}"))].

(** The two pages of the scenario of the specification. *)
Definition scenario_pages : Store :=
  store_of
    [(a_json, File (json_text "{'list': [{'id':'1'},{'id':'2'}]}"));
     (b_json, File (json_text "{'list': [{'id':'3','title':'x'}]}"))].

(** A page without the list field, and a page that is no JSON. *)
Definition bad_pages : Store :=
  store_of [(a_json, File (json_text "{'error':'none'}"));
            (b_json, File (utf8 "<html>"))].

Definition local_env : Env := example_env (λ _, NoResponse) [a_json; b_json].



(** An interim table with a column of mixed values, and a short and a
    long line. *)
Definition mixed_table : Store :=
  store_of [("/srv/drudid/data/interim/merged.csv",
             CsvFile [["id"; "n"]; ["1"; "3"]; ["2"; ""]; ["3"; "abc"];
                      ["4"; "NA"]; ["5"]; ["6"; "7"; "8"]])].

(** The frame of the mixed table: the values ["3"], [""] and ["abc"] of a
    column stay as they are; the long line is skipped. *)
Definition mixed_frame : DataFrame :=
  mkDataFrame ["id"; "n"]
    [[Some (PStr "1"); Some (PStr "3")]; [Some (PStr "2"); Some (PStr "")];
     [Some (PStr "3"); Some (PStr "abc")]; [Some (PStr "4"); Some (PStr "")];
     [Some (PStr "5"); Some (PStr "")]].

(** A store in which the interim directory is a regular file. *)
Definition interim_is_file : Store :=
  store_of [("/srv/drudid/data/interim", File [])].

(** ** Further observations *)

(** [config.py], line 18: the value of [os.getenv("DEV_MODE", True)] in
    the environment [environ] that [load_dotenv()] leaves: the text of
    the variable, or [True] where it is not set. *)
Definition config_DEV_MODE (environ : gmap string string) : value :=
  match environ !! "DEV_MODE" with
  | Some v => PStr v
  | None => PBool true
  end.

(** A fetch that gives no response, or one whose payload can be
    persisted: the two ways in which an index is dealt with without an
    exception. *)
Definition fetch_settles (E : Env) (p : gmap string string) : Prop :=
  fetch_data E p = NoResponse ∨ is_Some (persisted E p).

(** What is at a page path after the index was dealt with: the persisted
    payload, or what was there where the fetch gave no response. *)
Definition page_after (E : Env) (p0 : gmap string string) (s : Store)
    (i : Z) : option node :=
  match persisted E (page_request p0 i) with
  | Some data => Some (File data)
  | None => fs s !! page_path E i
  end.

(** The writes of a run over the indices [l]: one for each index whose
    payload is persisted. *)
Definition page_writes (E : Env) (p0 : gmap string string) (l : list Z)
  : list (string * bytes) :=
  omap (λ i, pair (page_path E i) <$> persisted E (page_request p0 i)) l.


(** What [load_large_csv_to_pd] gives for the lines of a table. *)
Definition loaded (E : Env) (lines : outcome (list (list string)))
  : outcome DataFrame :=
  match lines with
  | Ret [] => Raise EmptyDataError
  | Ret (header :: lines') => Ret (text_frame E header lines')
  | Raise e => Raise e
  end.



(** The environment of the examples with a Parquet writer that fails as
    told: [primary] with snappy compression, [fallback] with the fallback
    settings. *)
Definition parquet_env (primary fallback : option exn) : Env :=
  {| PROJ_ROOT := "/srv/drudid";
     DEV_MODE := true;
     fetch_data := λ _, NoResponse;
     get_total_pages := λ _, 0%Z;
     response_json := Json.loads;
     orjson_dumps := Json.dumps;
     orjson_loads := Json.loads;
     listdir := λ _, [];
     DataFrame_other := λ _, Raise ValueError;
     py_str := scalar_str;
     csv_tokenize := λ _, Raise ValueError;
     is_na := λ f, str_mem f STR_NA_VALUES;
     mangle_dupe_cols := dedup_names;
     astype_str_error := λ _, None;
     to_parquet_error := λ _, primary;
     to_parquet_fallback_error := λ _, fallback |}.

(** * Properties *)

(** ** Strings and paths *)

Lemma string_length_app (a b : string) :
  String.length (a +:+ b) = (String.length a + String.length b)%nat.
Proof. induction a as [|c a IH]; simpl; [done | by rewrite IH]. Qed.

Lemma string_app_assoc (a b c : string) : (a +:+ b) +:+ c = a +:+ (b +:+ c).
Proof.
  induction a as [|x a IH]; [done|].
  change (String x ((a +:+ b) +:+ c) = String x (a +:+ (b +:+ c))).
  by f_equal.
Qed.

Lemma string_app_ne (a b : string) : b ≠ "" → a +:+ b ≠ a.
Proof.
  intros Hb Heq. apply (f_equal String.length) in Heq.
  rewrite string_length_app in Heq. destruct b; [done | simpl in Heq; lia].
Qed.

Lemma string_app_inj_r (a b c : string) : a +:+ c = b +:+ c → a = b.
Proof.
  revert b. induction a as [|x a IH]; intros [|y b] Heq; simpl in *.
  - done.
  - exfalso. apply (f_equal String.length) in Heq.
    rewrite ?string_length_app in Heq. simpl in Heq.
    rewrite ?string_length_app in Heq. lia.
  - exfalso. apply (f_equal String.length) in Heq.
    rewrite ?string_length_app in Heq. simpl in Heq.
    rewrite ?string_length_app in Heq. lia.
  - injection Heq as -> Heq. f_equal. by apply IH.
Qed.

Lemma str_mem_elem (k : string) (ks : list string) :
  str_mem k ks = true ↔ k ∈ ks.
Proof.
  unfold str_mem. rewrite existsb_exists. split.
  - intros (x & Hin & Heq). apply String.eqb_eq in Heq as ->.
    by apply list_elem_of_In.
  - intros H. exists k. split; [by apply list_elem_of_In|apply String.eqb_refl].
Qed.

Lemma page_path_inj (E : Env) (i j : Z) : page_path E i = page_path E j → i = j.
Proof.
  unfold page_path. intros Heq.
  apply (inj (String.app _)) in Heq. apply (inj (String.app _)) in Heq.
  apply string_app_inj_r in Heq. by apply (inj pretty).
Qed.

Lemma page_path_not_raw (E : Env) (i : Z) : page_path E i ≠ RAW_DATA_DIR E.
Proof. unfold page_path. apply string_app_ne. simpl. discriminate. Qed.

(** ** The monad *)

Lemma run_eta {A} (r : Run A) : r = mkRun (out r) (store r) (events r).
Proof. by destruct r. Qed.

Lemma bind_ok {A B} (c : M A) (k : A → M B) s a s' evs :
  c s = mkRun (Ret a) s' evs →
  bind c k s = mkRun (out (k a s')) (store (k a s')) (evs ++ events (k a s')).
Proof. intros H. unfold bind. by rewrite H. Qed.

Lemma bind_raise {A B} (c : M A) (k : A → M B) s e s' evs :
  c s = mkRun (Raise e) s' evs → bind c k s = mkRun (Raise e) s' evs.
Proof. intros H. unfold bind. by rewrite H. Qed.

(** ** The pull stage *)

(** An index whose file exists is skipped when [force] is off. *)
Lemma pull_page_skip (E : Env) (i : Z) (s : Store) :
  is_Some (fs s !! page_path E i) →
  pull_page E false i s = mkRun (Ret tt) s [EvLog Info (skip_msg i)].
Proof.
  intros Hex. unfold pull_page, bind, path_exists. simpl.
  rewrite bool_decide_eq_true_2 by done. reflexivity.
Qed.

(** An index that is not skipped and whose fetch succeeds. *)
Lemma pull_page_fetch (E : Env) (force : bool) (i : Z) (s : Store) data :
  fs s !! page_path E i = None ∨ force = true →
  persisted E (page_request (FETCHER_BASE_PARAMS s) i) = Some data →
  pull_page E force i s =
    mkRun (Ret tt)
      (mkStore (<[page_path E i := File data]> (fs s))
         (page_request (FETCHER_BASE_PARAMS s) i))
      [EvSleep 1; EvFetch (page_request (FETCHER_BASE_PARAMS s) i);
       EvOpenWb (page_path E i); EvWrite (page_path E i) data;
       EvLog Success (saved_msg E i)].
Proof.
  intros Hgo Hp. unfold persisted, page_request in *.
  assert (bool_decide (is_Some (fs s !! page_path E i)) && negb force = false)
    as Hb.
  { destruct Hgo as [Hn | ->]; [|by rewrite andb_false_r].
    rewrite Hn. rewrite bool_decide_eq_false_2; [done|]. by intros [? ?]. }
  unfold pull_page, bind, path_exists. simpl. rewrite Hb. simpl.
  destruct (fetch_data E _) as [content|]; [|done]. simpl.
  destruct (response_json E content) as [doc|]; [|done]. simpl.
  destruct (orjson_dumps E doc) as [d|]; [|done]. simpl.
  injection Hp as ->. by rewrite insert_insert_eq.
Qed.

Lemma log_run (lvl : level) (msg : string) (s : Store) :
  log lvl msg s = mkRun (Ret tt) s [EvLog lvl msg].
Proof. done. Qed.

Lemma ret_run {A} (a : A) (s : Store) : ret a s = mkRun (Ret a) s [].
Proof. done. Qed.

Lemma store_eta (s : Store) : s = mkStore (fs s) (FETCHER_BASE_PARAMS s).
Proof. by destruct s. Qed.

Lemma mkdir_run (p : string) (s : Store) :
  mkdir_ok p s →
  mkdir p s = mkRun (Ret tt)
                (mkStore (<[p := Dir]> (fs s)) (FETCHER_BASE_PARAMS s))
                [EvMkdir p].
Proof.
  intros [H | H]; unfold mkdir; rewrite H; [done|].
  rewrite insert_id by done. by rewrite <- store_eta.
Qed.

Lemma page_request_twice (p0 : gmap string string) (i j : Z) :
  page_request (page_request p0 j) i = page_request p0 i.
Proof. unfold page_request. apply insert_insert_eq. Qed.

Lemma written_app (a b : list event) : written (a ++ b) = written a ++ written b.
Proof. apply omap_app. Qed.

Lemma fetch_args_app (a b : list event) :
  fetch_args (a ++ b) = fetch_args a ++ fetch_args b.
Proof. apply omap_app. Qed.

(** The loop of a first run: every index is fetched and stored. *)
Lemma pull_loop_fresh (E : Env) (force : bool) (p0 : gmap string string)
    (l : list Z) (s : Store) :
  NoDup l →
  (FETCHER_BASE_PARAMS s = p0 ∨ ∃ j, FETCHER_BASE_PARAMS s = page_request p0 j) →
  (∀ i, i ∈ l → fs s !! page_path E i = None) →
  (∀ i, i ∈ l → is_Some (persisted E (page_request p0 i))) →
  let r := for_each (pull_page E force) l s in
  out r = Ret tt ∧
  (written (events r)).*1 = page_path E <$> l ∧
  fetch_args (events r) = page_request p0 <$> l ∧
  (∀ i, i ∈ l →
     fs (store r) !! page_path E i = File <$> persisted E (page_request p0 i)) ∧
  (∀ p, (∀ i, i ∈ l → p ≠ page_path E i) → fs (store r) !! p = fs s !! p).
Proof.
  intros Hnd. revert s. induction Hnd as [|i l Hi Hnd IH]; intros s Hp Hfresh Hok.
  - simpl. repeat split; try done. intros i Hi. by apply elem_of_nil in Hi.
  - destruct (Hok i) as [data Hdata]; [by left|].
    assert (page_request (FETCHER_BASE_PARAMS s) i = page_request p0 i) as Hreq.
    { destruct Hp as [-> | [j ->]]; [done | apply page_request_twice]. }
    pose proof (pull_page_fetch E force i s data) as Hrun.
    rewrite Hreq in Hrun. specialize (Hrun (or_introl (Hfresh i ltac:(by left))) Hdata).
    cbn [for_each]. rewrite (bind_ok _ _ _ _ _ _ Hrun).
    set (s1 := mkStore _ _) in *.
    destruct (IH s1) as (Hout & Hw & Hf & Hfs & Hother).
    + right. by exists i.
    + intros j Hj. unfold s1. cbn [fs]. rewrite lookup_insert_ne.
      * apply Hfresh. by right.
      * intros Heq. apply page_path_inj in Heq. by subst.
    + intros j Hj. apply Hok. by right.
    + cbn [out store events]. split; [done|]. split; [|split; [|split]].
      * rewrite written_app, fmap_app, Hw. done.
      * rewrite fetch_args_app, Hf. done.
      * intros j Hj. apply elem_of_cons in Hj as [-> | Hj]; [|by apply Hfs].
        rewrite Hother.
        -- unfold s1. cbn [fs]. rewrite lookup_insert_eq. by rewrite Hdata.
        -- intros k Hk Heq. apply page_path_inj in Heq. by subst.
      * intros p Hne. rewrite Hother.
        -- unfold s1. cbn [fs]. rewrite lookup_insert_ne; [done|].
           intros Heq. by apply (Hne i); [left|].
        -- intros k Hk. apply Hne. by right.
Qed.

(** The loop of a later run with [force] off: every index is skipped. *)
Lemma pull_loop_skip (E : Env) (l : list Z) (s : Store) :
  (∀ i, i ∈ l → is_Some (fs s !! page_path E i)) →
  for_each (pull_page E false) l s =
    mkRun (Ret tt) s ((λ i, EvLog Info (skip_msg i)) <$> l).
Proof.
  induction l as [|i l IH]; intros Hex; [done|].
  simpl. rewrite (bind_ok _ _ _ _ _ _ (pull_page_skip E i s (Hex i ltac:(by left)))).
  rewrite IH; [done|]. intros j Hj. apply Hex. by right.
Qed.

(** An explicit, valid range: [pull] up to its loop. *)
Lemma pull_valid_range (E : Env) (start_page end_page : Z) (force : bool)
    (s : Store) :
  (start_page < end_page)%Z →
  mkdir_ok (RAW_DATA_DIR E) s →
  let s1 := mkStore (<[RAW_DATA_DIR E := Dir]> (fs s)) (FETCHER_BASE_PARAMS s) in
  let loop := for_each (pull_page E force)
                (seqZ start_page (end_page - start_page)) s1 in
  pull E start_page (Some end_page) force s =
    mkRun (out loop) (store loop)
      ([EvLog Info retrieving_msg; EvMkdir (RAW_DATA_DIR E);
        EvLog Info (total_msg (end_page - start_page))] ++ events loop).
Proof.
  intros Hlt Hdir. unfold pull.
  rewrite (bind_ok _ _ _ _ _ _ (log_run _ _ s)).
  rewrite (bind_ok _ _ _ _ _ _ (mkdir_run _ s Hdir)).
  unfold pull_end_page. rewrite (proj2 (Z.leb_gt _ _)) by lia.
  rewrite (bind_ok _ _ _ _ _ _ (ret_run _ _)).
  rewrite (bind_ok _ _ _ _ _ _ (log_run _ _ _)).
  cbn [out store events app]. done.
Qed.

(** C2.  Over a valid range [start_page < end_page] in which every fetch
    succeeds, a first run of [pull] (no page of the range stored yet, the
    raw-data directory creatable) writes exactly one page file per index
    of the range, each holding what the fetch of its index gave; a second
    run over the range with [force] off then only logs that it skips each
    index: it fetches nothing, writes nothing and leaves the files as
    they are. *)
Theorem pull_first_run_then_idempotent (E : Env) (start_page end_page : Z)
    (force : bool) (s : Store) :
  (start_page < end_page)%Z →
  mkdir_ok (RAW_DATA_DIR E) s →
  (∀ i, (start_page ≤ i < end_page)%Z → fs s !! page_path E i = None) →
  (∀ i, (start_page ≤ i < end_page)%Z →
     is_Some (persisted E (page_request (FETCHER_BASE_PARAMS s) i))) →
  let pages := seqZ start_page (end_page - start_page) in
  let r1 := pull E start_page (Some end_page) force s in
  let r2 := pull E start_page (Some end_page) false (store r1) in
  out r1 = Ret tt ∧
  (written (events r1)).*1 = page_path E <$> pages ∧
  NoDup (page_path E <$> pages) ∧
  (∀ i, i ∈ pages →
     fs (store r1) !! page_path E i
     = File <$> persisted E (page_request (FETCHER_BASE_PARAMS s) i)) ∧
  out r2 = Ret tt ∧
  events r2 = [EvLog Info retrieving_msg; EvMkdir (RAW_DATA_DIR E);
               EvLog Info (total_msg (end_page - start_page))]
              ++ ((λ i, EvLog Info (skip_msg i)) <$> pages) ∧
  fs (store r2) = fs (store r1).
Proof.
  intros Hlt Hdir Hfresh Hok pages r1 r2.
  assert (∀ i, i ∈ pages ↔ (start_page ≤ i < end_page)%Z) as Hpages.
  { intros i. unfold pages. rewrite elem_of_seqZ. lia. }
  pose proof (pull_valid_range E start_page end_page force s Hlt Hdir) as H1.
  cbv zeta in H1. fold pages in H1. fold r1 in H1.
  set (s1 := mkStore _ _) in H1.
  destruct (pull_loop_fresh E force (FETCHER_BASE_PARAMS s) pages s1)
    as (Hout & Hw & _ & Hfs & Hother).
  { apply NoDup_seqZ. }
  { by left. }
  { intros i Hi. unfold s1. cbn [fs].
    rewrite lookup_insert_ne by (apply not_eq_sym, page_path_not_raw).
    apply Hfresh. by apply Hpages. }
  { intros i Hi. apply Hok. by apply Hpages. }
  assert (fs (store r1) !! RAW_DATA_DIR E = Some Dir) as Hraw.
  { rewrite H1. cbn [store]. rewrite Hother.
    - unfold s1. cbn [fs]. apply lookup_insert_eq.
    - intros i _. apply not_eq_sym, page_path_not_raw. }
  assert (∀ i, i ∈ pages →
            fs (store r1) !! page_path E i
            = File <$> persisted E (page_request (FETCHER_BASE_PARAMS s) i))
    as Hfiles.
  { intros i Hi. rewrite H1. cbn [store]. by apply Hfs. }
  split; [by rewrite H1|]. split.
  { rewrite H1. cbn [events]. by rewrite written_app. }
  split.
  { apply NoDup_fmap_2; [|apply NoDup_seqZ]. intros i j. apply page_path_inj. }
  split; [done|].
  pose proof (pull_valid_range E start_page end_page false (store r1) Hlt
                (or_intror Hraw)) as H2.
  cbv zeta in H2. fold pages in H2. fold r2 in H2.
  rewrite (insert_id _ _ _ Hraw) in H2. rewrite <- store_eta in H2.
  rewrite pull_loop_skip in H2.
  - rewrite H2. by cbn [out store events].
  - intros i Hi. rewrite (Hfiles i Hi).
    destruct (Hok i) as [d ->]; [by apply Hpages|]. by eexists.
Qed.

Lemma pull_first_run_then_idempotent_witness :
  let E := example_env spaced_remote [] in
  let pages := seqZ 0 (2 - 0) in
  let r1 := pull E 0 (Some 2%Z) false (store_of []) in
  let r2 := pull E 0 (Some 2%Z) false (store r1) in
  out r1 = Ret tt ∧
  (written (events r1)).*1 = page_path E <$> pages ∧
  NoDup (page_path E <$> pages) ∧
  (∀ i, i ∈ pages →
     fs (store r1) !! page_path E i
     = File <$> persisted E
                  (page_request (FETCHER_BASE_PARAMS (store_of [])) i)) ∧
  out r2 = Ret tt ∧
  events r2 = [EvLog Info retrieving_msg; EvMkdir (RAW_DATA_DIR E);
               EvLog Info (total_msg (2 - 0))]
              ++ ((λ i, EvLog Info (skip_msg i)) <$> pages) ∧
  fs (store r2) = fs (store r1).
Proof.
  apply (pull_first_run_then_idempotent (example_env spaced_remote []) 0 2
           false (store_of [])).
  - lia.
  - left. reflexivity.
  - intros i _. reflexivity.
  - intros i _. exists (json_text "{'list':[]}"). vm_compute. reflexivity.
Defined.

(** C5 (as amended).  For every page index that is not skipped and whose
    fetch succeeds, [pull] stores at the path of the index the bytes that
    [orjson.dumps] gives for the parsed document of the response,
    [orjson.dumps(response.json())]: the payload is stored re-serialised,
    not byte for byte. *)
Theorem pull_page_stores_reserialised_payload (E : Env) (force : bool)
    (i : Z) (s : Store) (content : bytes) (doc : value) (data : bytes) :
  fs s !! page_path E i = None ∨ force = true →
  fetch_data E (page_request (FETCHER_BASE_PARAMS s) i) = Response content →
  response_json E content = Ret doc →
  orjson_dumps E doc = Ret data →
  let r := pull_page E force i s in
  out r = Ret tt ∧
  written (events r) = [(page_path E i, data)] ∧
  fs (store r) !! page_path E i = Some (File data) ∧
  (∀ p, p ≠ page_path E i → fs (store r) !! p = fs s !! p).
Proof.
  intros Hgo Hfetch Hjson Hdumps r. unfold r.
  rewrite (pull_page_fetch E force i s data Hgo).
  - cbn [out store events fs]. split; [done|]. split; [done|].
    split; [apply lookup_insert_eq|].
    intros p Hp. by rewrite lookup_insert_ne.
  - unfold persisted. by rewrite Hfetch, Hjson, Hdumps.
Qed.

Lemma pull_page_stores_reserialised_payload_witness :
  let E := example_env spaced_remote [] in
  let r := pull_page E false 0 (store_of []) in
  out r = Ret tt ∧
  written (events r) = [(page_path E 0, json_text "{'list':[]}")] ∧
  fs (store r) !! page_path E 0 = Some (File (json_text "{'list':[]}")) ∧
  (∀ p, p ≠ page_path E 0 → fs (store r) !! p = fs (store_of []) !! p).
Proof.
  apply (pull_page_stores_reserialised_payload (example_env spaced_remote [])
           false 0 (store_of []) (json_text "{'list': []}")
           (PDict [("list", PList [])])).
  - left. reflexivity.
  - reflexivity.
  - vm_compute. reflexivity.
  - vm_compute. reflexivity.
Defined.

(** C5, as stated, fails: the remote sends [{"list": []}] with a space,
    the fetch succeeds, and the page file holds [{"list":[]}]. *)
Lemma pull_payload_not_verbatim :
  let E := example_env spaced_remote [] in
  let r := pull E 0 (Some 1%Z) false (store_of []) in
  fetch_data E (page_request FETCHER_BASE_PARAMS_init 0)
  = Response (json_text "{'list': []}") ∧
  fs (store r) !! page_path E 0 = Some (File (json_text "{'list':[]}")) ∧
  json_text "{'list':[]}" ≠ json_text "{'list': []}".
Proof. vm_compute. repeat split; try reflexivity. discriminate. Qed.




(** ** The shared request parameters *)







(** A run over the pages 0 and 1 leaves [page = "1"] in the shared
    dictionary, next to the four entries of [config.py]. *)
Example pull_leaves_last_page :
  let r := pull (example_env spaced_remote []) 0 (Some 2%Z) false (store_of []) in
  FETCHER_BASE_PARAMS_init !! "page" = None ∧
  FETCHER_BASE_PARAMS (store r) = <["page" := "1"]> FETCHER_BASE_PARAMS_init ∧
  fetch_args (events r) = [<["page" := "0"]> FETCHER_BASE_PARAMS_init;
                           <["page" := "1"]> FETCHER_BASE_PARAMS_init].
Proof. vm_compute. repeat split; reflexivity. Qed.

(** ** The merge stage *)

Lemma csv_writes_app (a b : list event) :
  csv_writes (a ++ b) = csv_writes a ++ csv_writes b.
Proof. apply omap_app. Qed.

Ltac finish_skip dfs :=
  eexists; split;
  [unfold option_list, option_rect; rewrite ?(app_nil_r dfs); reflexivity
  | reflexivity].

(** One page file: [merge_file] appends the frame of the file, if it has
    one, writes nothing and never raises. *)
Lemma merge_file_run (E : Env) (dfs : list DataFrame) (file : string)
    (s : Store) :
  ∃ evs,
    merge_file E dfs file s
    = mkRun (Ret (dfs ++ option_list (file_frame E s file))) s evs
    ∧ csv_writes evs = [].
Proof.
  unfold merge_file, file_frame, page_doc, try_except, bind, read_file, lift,
    log, emit, ret.
  cbn [out store events].
  destruct (read_bytes s file) as [data|e]; cbn [out store events];
    [|finish_skip dfs].
  destruct (orjson_loads E data) as [doc|e]; cbn [out store events];
    [|finish_skip dfs].
  destruct doc as [|b|z|m e|t|l|kv]; cbn [py_contains list_field out store events];
    try (finish_skip dfs).
  - destruct (is_substring "list" t); cbn [py_getitem out store events];
      finish_skip dfs.
  - destruct (existsb (is_str "list") l); cbn [py_getitem out store events];
      finish_skip dfs.
  - destruct (dict_get kv "list") as [v|] eqn:Hv.
    + rewrite bool_decide_eq_true_2 by by eexists.
      cbn [py_getitem out store events]. rewrite Hv. cbn [out store events].
      destruct (py_truthy v); cbn [out store events];
        [|finish_skip dfs].
      destruct (pd_DataFrame E v) as [df|e]; cbn [out store events];
        finish_skip dfs.
    + rewrite bool_decide_eq_false_2 by by intros [? ?].
      cbn [out store events]. finish_skip dfs.
Qed.

(** The files of a batch: the frames of the files, in order. *)
Lemma merge_files_run (E : Env) (files : list string) (dfs : list DataFrame)
    (s : Store) :
  ∃ evs,
    for_fold (merge_file E) dfs files s
    = mkRun (Ret (dfs ++ omap (file_frame E s) files)) s evs
    ∧ csv_writes evs = [].
Proof.
  revert dfs. induction files as [|f files IH]; intros dfs.
  - exists []. by rewrite app_nil_r.
  - cbn [for_fold].
    destruct (merge_file_run E dfs f s) as (evs1 & Hrun1 & Hevs1).
    rewrite (bind_ok _ _ _ _ _ _ Hrun1).
    destruct (IH (dfs ++ option_list (file_frame E s f))) as (evs2 & Hrun2 & Hevs2).
    rewrite Hrun2. cbn [out store events].
    exists (evs1 ++ evs2). split.
    + f_equal. f_equal. rewrite <- app_assoc. f_equal.
      cbn [omap list_omap]. by destruct (file_frame E s f).
    + by rewrite csv_writes_app, Hevs1, Hevs2.
Qed.

(** One batch: nothing is written for an empty batch; the table of a
    batch that is not empty is written, with a header if it is the first
    such batch. *)
Lemma merge_chunk_run (E : Env) (files : list string) (chunk_size : Z)
    (output : string) (first : bool) (total a : Z) (s : Store) :
  ∃ evs,
    merge_chunk E files chunk_size output (first, total) a s
    = match batch_table E s (py_slice files a (a + chunk_size)) with
      | None => mkRun (Ret (first, total)) s evs
      | Some t =>
          mkRun (Ret (false, (total + df_len t)%Z))
            (store (to_csv E t output (if first then ModeW else ModeA) first s))
            evs
      end
    ∧ csv_writes evs
      = match batch_table E s (py_slice files a (a + chunk_size)) with
        | None => []
        | Some t => [(output, if first then ModeW else ModeA, first, t)]
        end.
Proof.
  unfold merge_chunk, batch_table. cbn [fst snd].
  destruct (merge_files_run E (py_slice files a (a + chunk_size)) [] s)
    as (evs & Hrun & Hevs).
  rewrite (bind_ok _ _ _ _ _ _ Hrun). cbn [app].
  destruct (omap (file_frame E s) (py_slice files a (a + chunk_size)))
    as [|df dfs].
  - exists (evs ++ [EvGcCollect]). split; [done|].
    by rewrite csv_writes_app, Hevs.
  - destruct first.
    + eexists. split; [reflexivity|].
      cbn [events pd_concat lift bind out store to_csv log emit ret app].
      by rewrite !csv_writes_app, Hevs.
    + eexists. split; [reflexivity|].
      cbn [events pd_concat lift bind out store to_csv log emit ret app].
      by rewrite !csv_writes_app, Hevs.
Qed.

Lemma file_frame_same (E : Env) (s s' : Store) (f : string) :
  fs s' !! f = fs s !! f → file_frame E s' f = file_frame E s f.
Proof. intros H. unfold file_frame, page_doc, read_bytes. by rewrite H. Qed.

Lemma batch_table_same (E : Env) (s s' : Store) (batch : list string) :
  (∀ f, f ∈ batch → fs s' !! f = fs s !! f) →
  batch_table E s' batch = batch_table E s batch.
Proof.
  intros H. unfold batch_table.
  replace (omap (file_frame E s') batch) with (omap (file_frame E s) batch);
    [done|].
  induction batch as [|f batch IH]; [done|]. cbn [omap list_omap].
  rewrite (file_frame_same E s s' f) by (apply H; by left).
  rewrite IH; [done|]. intros g Hg. apply H. by right.
Qed.

Lemma py_slice_elem {A} (l : list A) (a b : Z) (x : A) :
  x ∈ py_slice l a b → x ∈ l.
Proof.
  unfold py_slice. intros H.
  apply (subseteq_drop (Z.to_nat a)). by apply (subseteq_take (Z.to_nat (b - a))).
Qed.

Lemma total_len_cons (t : DataFrame) (ts : list DataFrame) :
  total_len (t :: ts) = (df_len t + total_len ts)%Z.
Proof. unfold total_len, df_len. cbn [sum_list_with]. lia. Qed.

(** The batches after the first one that was written: each table is
    appended, without a header. *)
Lemma merge_loop_append (E : Env) (files : list string) (chunk_size : Z)
    (output : string) (s0 : Store) (starts : list Z) :
  output ∉ files →
  ∀ (total : Z) (s : Store) (old : list (list string)),
    (∀ f, f ≠ output → fs s !! f = fs s0 !! f) →
    fs s !! output = Some (CsvFile old) →
    let tables :=
      omap (λ a, batch_table E s0 (py_slice files a (a + chunk_size))) starts in
    ∃ evs,
      for_fold (merge_chunk E files chunk_size output) (false, total) starts s
      = mkRun (Ret (false, (total + total_len tables)%Z))
          (mkStore
             (<[output := CsvFile (old ++ concat (data_lines E <$> tables))]>
                (fs s))
             (FETCHER_BASE_PARAMS s))
          evs
      ∧ csv_writes evs = (λ d, (output, ModeA, false, d)) <$> tables.
Proof.
  intros Hout. induction starts as [|a starts IH]; intros total s old Hsame Hold.
  - exists []. split; [|done]. cbn [for_fold omap list_omap].
    rewrite ret_run. f_equal.
    + f_equal. f_equal. change (total_len []) with 0%Z. lia.
    + cbn [fmap list_fmap concat]. rewrite app_nil_r, insert_id by done.
      apply store_eta.
  - cbn [for_fold omap list_omap].
    destruct (merge_chunk_run E files chunk_size output false total a s)
      as (evs1 & Hrun1 & Hevs1).
    rewrite (batch_table_same E s0 s) in Hrun1, Hevs1.
    2,3: intros f Hf; apply Hsame; intros ->; by apply Hout, (py_slice_elem _ a (a + chunk_size)).
    destruct (batch_table E s0 (py_slice files a (a + chunk_size))) as [t|].
    + rewrite (bind_ok _ _ _ _ _ _ Hrun1).
      unfold to_csv at 1 2 3. cbn [store]. rewrite Hold. cbn [app].
      set (s1 := mkStore _ _).
      destruct (IH (total + df_len t)%Z s1 (old ++ data_lines E t))
        as (evs2 & Hrun2 & Hevs2).
      { intros f Hf. unfold s1. cbn [fs]. rewrite lookup_insert_ne by done.
        by apply Hsame. }
      { unfold s1. cbn [fs]. apply lookup_insert_eq. }
      rewrite Hrun2. cbn [out store events]. eexists. split.
      * f_equal.
        -- f_equal. f_equal. rewrite total_len_cons. lia.
        -- unfold s1. cbn [fs FETCHER_BASE_PARAMS]. f_equal.
           rewrite insert_insert_eq. cbn [fmap list_fmap concat].
           by rewrite <- app_assoc.
      * rewrite csv_writes_app, Hevs1, Hevs2. done.
    + rewrite (bind_ok _ _ _ _ _ _ Hrun1).
      destruct (IH total s old Hsame Hold) as (evs2 & Hrun2 & Hevs2).
      rewrite Hrun2. cbn [out store events]. eexists. split; [done|].
      by rewrite csv_writes_app, Hevs1, Hevs2.
Qed.

(** The whole loop: the first table is written with the header, the
    others are appended without one. *)
Lemma merge_loop_first (E : Env) (files : list string) (chunk_size : Z)
    (output : string) (s : Store) (starts : list Z) :
  output ∉ files →
  ∀ (total : Z),
    let tables :=
      omap (λ a, batch_table E s (py_slice files a (a + chunk_size))) starts in
    ∃ evs,
      for_fold (merge_chunk E files chunk_size output) (true, total) starts s
      = mkRun (Ret (match tables with [] => true | _ => false end,
                    (total + total_len tables)%Z))
          (match tables with
           | [] => s
           | _ :: _ =>
               mkStore (<[output := CsvFile (csv_of_tables E tables)]> (fs s))
                 (FETCHER_BASE_PARAMS s)
           end)
          evs
      ∧ csv_writes evs = header_then_appends output tables.
Proof.
  intros Hout. induction starts as [|a starts IH]; intros total.
  - exists []. split; [|done]. cbn [for_fold omap list_omap].
    rewrite ret_run. f_equal. f_equal. f_equal.
    change (total_len []) with 0%Z. lia.
  - cbn [for_fold omap list_omap].
    destruct (merge_chunk_run E files chunk_size output true total a s)
      as (evs1 & Hrun1 & Hevs1).
    destruct (batch_table E s (py_slice files a (a + chunk_size))) as [t|].
    + rewrite (bind_ok _ _ _ _ _ _ Hrun1).
      unfold to_csv at 1 2 3. cbn [store app].
      set (s1 := mkStore _ _).
      destruct (merge_loop_append E files chunk_size output s starts Hout
                  (total + df_len t)%Z s1 (columns t :: data_lines E t))
        as (evs2 & Hrun2 & Hevs2).
      { intros f Hf. unfold s1. cbn [fs]. by rewrite lookup_insert_ne. }
      { unfold s1. cbn [fs]. apply lookup_insert_eq. }
      rewrite Hrun2. cbn [out store events]. eexists. split.
      * f_equal.
        -- f_equal. f_equal. rewrite total_len_cons. lia.
        -- unfold s1. cbn [fs FETCHER_BASE_PARAMS]. f_equal.
           by rewrite insert_insert_eq.
      * rewrite csv_writes_app, Hevs1, Hevs2. done.
    + rewrite (bind_ok _ _ _ _ _ _ Hrun1).
      destruct (IH total) as (evs2 & Hrun2 & Hevs2).
      rewrite Hrun2. cbn [out store events]. eexists. split; [done|].
      by rewrite csv_writes_app, Hevs1, Hevs2.
Qed.

Lemma strip_prefix_Some (p s name : string) :
  strip_prefix p s = Some name → s = p +:+ name.
Proof.
  revert s. induction p as [|a p IH]; intros [|b s] H; cbn in H; try done.
  - by injection H as <-.
  - by injection H as <-.
  - destruct (Ascii.eqb_spec a b) as [->|]; [|done].
    change (String b s = String b (p +:+ name)). f_equal. by apply IH.
Qed.

(** The output of [merge] is none of the files [glob] finds. *)
Lemma merged_csv_not_globbed (E : Env) (s : Store) :
  merged_csv E ∉ glob_json E s.
Proof.
  unfold glob_json. rewrite list_elem_of_In, filter_In. intros [_ H].
  apply andb_true_iff in H as [H _]. unfold glob_match_json in H.
  destruct (strip_prefix _ _) as [name|] eqn:Hname; [|done].
  apply strip_prefix_Some in Hname.
  unfold merged_csv, INTERIM_DATA_DIR, RAW_DATA_DIR in Hname.
  rewrite !string_app_assoc in Hname.
  apply (inj (String.app _)) in Hname. cbn in Hname. discriminate.
Qed.

Lemma omap_fmap_list {A B C} (f : A → B) (g : B → option C) (l : list A) :
  omap g (f <$> l) = omap (λ a, g (f a)) l.
Proof.
  induction l as [|a l IH]; [done|]. cbn [fmap list_fmap omap list_omap].
  rewrite <- IH. done.
Qed.

Lemma py_range_Raise (start stop step : Z) (e : exn) :
  py_range start stop step = Raise e → step = 0%Z ∧ e = ValueError.
Proof.
  unfold py_range. destruct (Z.eqb_spec step 0); [by intros [= <-]|].
  by destruct (0 <? step)%Z.
Qed.

Lemma py_range_Ret (start stop step : Z) (l : list Z) :
  py_range start stop step = Ret l → step ≠ 0%Z.
Proof. unfold py_range. by destruct (Z.eqb_spec step 0). Qed.

Lemma batch_tables_no_files (E : Env) (chunk_size : Z) (s : Store) :
  glob_json E s = [] → batch_tables E chunk_size s = [].
Proof.
  intros H. unfold batch_tables, batch_files. rewrite H.
  destruct (py_range _ _ _) as [starts|]; [|done].
  rewrite omap_fmap_list. induction starts as [|a starts IH]; [done|].
  cbn [omap list_omap]. rewrite IH. unfold py_slice.
  by rewrite drop_nil, take_nil.
Qed.

(** A run of [merge]: what it writes, what it leaves, and how it ends. *)
Lemma merge_run (E : Env) (chunk_size : Z) (s : Store) :
  let tables := batch_tables E chunk_size s in
  ∃ evs o,
    merge E chunk_size s
    = mkRun o
        (match tables with
         | [] => s
         | _ :: _ =>
             mkStore
               (<[merged_csv E := CsvFile (csv_of_tables E tables)]> (fs s))
               (FETCHER_BASE_PARAMS s)
         end)
        evs
    ∧ csv_writes evs = header_then_appends (merged_csv E) tables
    ∧ (glob_json E s = [] → o = Ret tt)
    ∧ (glob_json E s ≠ [] → chunk_size = 0%Z → o = Raise ValueError)
    ∧ (glob_json E s ≠ [] → chunk_size ≠ 0%Z →
         o = Ret tt ∧
         last evs = Some (EvLog Success (merge_done_msg E (total_len tables)))).
Proof.
  intros tables. unfold merge.
  rewrite (bind_ok _ _ _ _ _ _ (log_run _ _ s)).
  rewrite (bind_ok (glob E) _ s (glob_json E s) s [] eq_refl).
  rewrite (bind_ok _ _ _ _ _ _ (log_run _ _ s)).
  destruct (glob_json E s) as [|f files] eqn:Hglob.
  - pose proof (batch_tables_no_files E chunk_size s Hglob) as Hnone.
    fold tables in Hnone. rewrite Hnone.
    do 2 eexists. split; [reflexivity|]. by repeat split.
  - unfold tables, batch_tables, batch_files. rewrite Hglob.
    destruct (py_range 0 (Z.of_nat (length (f :: files))) chunk_size)
      as [starts|e] eqn:Hrange.
    + rewrite (bind_ok (lift _) _ s starts s [] eq_refl).
      rewrite omap_fmap_list.
      destruct (merge_loop_first E (f :: files) chunk_size (merged_csv E) s
                  starts) with (total := 0%Z) as (evs & Hrun & Hevs).
      { rewrite <- Hglob. apply merged_csv_not_globbed. }
      rewrite (bind_ok _ _ _ _ _ _ Hrun).
      rewrite log_run. cbn [out store events snd]. rewrite Z.add_0_l.
      do 2 eexists. split; [reflexivity|].
      split; [by rewrite !csv_writes_app, Hevs, app_nil_r|].
      split; [done|]. split.
      * intros _ ->. by apply py_range_Ret in Hrange.
      * intros _ _. split; [done|].
        rewrite !app_assoc. by rewrite last_snoc.
    + apply py_range_Raise in Hrange as [-> ->].
      rewrite (bind_raise (lift _) _ s ValueError s [] eq_refl).
      do 2 eexists. split; [reflexivity|]. by repeat split.
Qed.

(** *** Batches *)

Lemma concat_take_chunks {A} (c : nat) (l : list A) (m : nat) :
  concat ((λ i, take c (drop (i * c) l)) <$> seq 0 m) = take (m * c) l.
Proof.
  induction m as [|m IH]; [done|].
  rewrite seq_S, fmap_app, concat_app, IH. cbn [fmap list_fmap concat].
  rewrite app_nil_r, take_take_drop. f_equal. lia.
Qed.

(** With a positive chunk size the batches are the files, cut in order. *)
Lemma batch_files_partition (files : list string) (chunk_size : Z) :
  (1 ≤ chunk_size)%Z → concat (batch_files files chunk_size) = files.
Proof.
  intros Hc. unfold batch_files, py_range.
  rewrite (proj2 (Z.eqb_neq _ _)) by lia.
  rewrite (proj2 (Z.ltb_lt _ _)) by lia.
  set (n := Z.of_nat (length files)).
  set (m := ((n - 0 + chunk_size - 1) / chunk_size)%Z).
  unfold seqZ. rewrite <- !list_fmap_compose.
  rewrite (list_fmap_ext _
             (λ i, take (Z.to_nat chunk_size)
                     (drop (i * Z.to_nat chunk_size) files))).
  - rewrite concat_take_chunks. apply take_ge.
    assert (n ≤ m * chunk_size)%Z.
    { unfold m.
      pose proof (Z.div_mod (n - 0 + chunk_size - 1) chunk_size ltac:(lia)).
      pose proof (Z.mod_pos_bound (n - 0 + chunk_size - 1) chunk_size ltac:(lia)).
      nia. }
    assert (0 ≤ m)%Z by (unfold m; apply Z.div_pos; lia).
    unfold n in *. nia.
  - intros i x _. cbn [compose]. unfold py_slice.
    replace (Z.to_nat (0 + (Z.of_nat x + 0) * chunk_size))
      with (x * Z.to_nat chunk_size)%nat by nia.
    f_equal. f_equal. lia.
Qed.

(** *** Row counts *)
















(** C3 on its failing input.  Two pages with the fields [id] and [title],
    merged one file per batch: the header is that of the first batch
    alone, [title] is no column of the table, and the row of the second
    batch stands under [id].  Merged in one batch, the same pages give
    the union of the fields and rows read in it. *)
Theorem merge_schema_depends_on_batches :
  fs (store (merge local_env 1 two_pages)) !! merged_csv local_env
  = Some (CsvFile [["id"]; ["1"]; ["x"]]) ∧
  fs (store (merge local_env 2 two_pages)) !! merged_csv local_env
  = Some (CsvFile [["id"; "title"]; ["1"; ""]; [""; "x"]]).
Proof. vm_compute. split; reflexivity. Qed.

Lemma skipped_no_frame (E : Env) (s : Store) (f : string) :
  skipped_or_empty E s f → file_frame E s f = None.
Proof.
  unfold skipped_or_empty, file_frame.
  destruct (page_doc E s f) as [doc|]; [|done].
  destruct (list_field doc) as [v|]; [|done]. by intros ->.
Qed.

Lemma no_frame_no_table (E : Env) (s : Store) (batches : list (list string)) :
  (∀ b f, b ∈ batches → f ∈ b → file_frame E s f = None) →
  omap (batch_table E s) batches = [].
Proof.
  induction batches as [|b batches IH]; intros H; [done|].
  cbn [omap list_omap]. rewrite IH by (intros b' f Hb; apply H; by right).
  assert (omap (file_frame E s) b = []) as Hb.
  { assert (∀ f, f ∈ b → file_frame E s f = None) as Hf
      by (intros f; apply H; by left).
    clear H IH. induction b as [|f b IH]; [done|]. cbn [omap list_omap].
    rewrite (Hf f) by by left. apply IH. intros g Hg. apply Hf. by right. }
  unfold batch_table. by rewrite Hb.
Qed.

Lemma batch_files_elem (files : list string) (chunk_size : Z)
    (b : list string) (f : string) :
  b ∈ batch_files files chunk_size → f ∈ b → f ∈ files.
Proof.
  unfold batch_files. destruct (py_range _ _ _) as [starts|]; intros Hb Hf.
  - apply list_elem_of_fmap in Hb as (a & -> & _). by apply py_slice_elem in Hf.
  - by apply elem_of_nil in Hb.
Qed.

(** C10 (as amended).  With a chunk size other than zero: when [merge]
    finds page files and each of them is skipped, for a missing list field
    or an error, or has an empty list, the run writes nothing, leaves the
    store as it found it, so creates no interim table, and completes with
    the report of zero rows. *)
Theorem merge_nothing_to_write (E : Env) (chunk_size : Z) (s : Store) :
  chunk_size ≠ 0%Z →
  glob_json E s ≠ [] →
  (∀ f, f ∈ glob_json E s → skipped_or_empty E s f) →
  let r := merge E chunk_size s in
  out r = Ret tt ∧
  store r = s ∧
  csv_writes (events r) = [] ∧
  last (events r) = Some (EvLog Success (merge_done_msg E 0)).
Proof.
  intros Hc Hfiles Hskip r.
  destruct (merge_run E chunk_size s) as (evs & o & Hrun & Hw & _ & _ & Hok).
  assert (batch_tables E chunk_size s = []) as Hnone.
  { apply no_frame_no_table. intros b f Hb Hf. apply skipped_no_frame, Hskip.
    by apply (batch_files_elem _ chunk_size b). }
  rewrite Hnone in Hrun, Hw, Hok. destruct (Hok Hfiles Hc) as [-> Hlast].
  unfold r. rewrite Hrun. by cbn [out store events].
Qed.

Lemma merge_nothing_to_write_witness :
  let r := merge local_env 1 bad_pages in
  out r = Ret tt ∧
  store r = bad_pages ∧
  csv_writes (events r) = [] ∧
  last (events r) = Some (EvLog Success (merge_done_msg local_env 0)).
Proof.
  apply (merge_nothing_to_write local_env 1 bad_pages).
  - lia.
  - vm_compute. discriminate.
  - intros f Hf.
    assert (glob_json local_env bad_pages = [a_json; b_json]) as Hg
      by (vm_compute; reflexivity).
    rewrite Hg in Hf.
    apply elem_of_cons in Hf as [-> | Hf];
      [|apply elem_of_cons in Hf as [-> | Hf]; [|by apply elem_of_nil in Hf]];
      vm_compute; exact I.
Defined.

(** C10, as stated, fails: with a chunk size of zero, two page files
    that are both skipped, [merge] does not complete: [range] refuses the
    zero step and the [ValueError] leaves the stage. *)
Lemma merge_zero_chunk_size_raises :
  glob_json local_env bad_pages = [a_json; b_json] ∧
  skipped_or_empty local_env bad_pages a_json ∧
  skipped_or_empty local_env bad_pages b_json ∧
  out (merge local_env 0 bad_pages) = Raise ValueError.
Proof. vm_compute. repeat split; reflexivity. Qed.

(** ** The schema of one batch *)






(** ** The convert stage *)

(** *** Frames *)

Lemma add_columns_fresh (acc new : list string) :
  NoDup (acc ++ new) → add_columns acc new = acc ++ new.
Proof.
  unfold add_columns. revert acc.
  induction new as [|k new IH]; intros acc Hnd; [by rewrite app_nil_r|].
  cbn [fold_left].
  destruct (str_mem k acc) eqn:Hk.
  - apply str_mem_elem in Hk. apply NoDup_app in Hnd as (_ & Hdisj & _).
    exfalso. apply (Hdisj k Hk). by left.
  - rewrite IH; rewrite <- app_assoc; done.
Qed.

Lemma add_columns_known (acc new : list string) :
  (∀ k, k ∈ new → k ∈ acc) → add_columns acc new = acc.
Proof.
  unfold add_columns. induction new as [|k new IH]; intros H; [done|].
  cbn [fold_left]. rewrite (proj2 (str_mem_elem k acc)) by (apply H; by left).
  apply IH. intros k' Hk'. apply H. by right.
Qed.

(** Frames that all have the columns [cols], concatenated, have them. *)
Lemma union_columns_same (cols : list string) (ls : list (list string)) :
  NoDup cols → ls ≠ [] → Forall (λ l, l = cols) ls → union_columns ls = cols.
Proof.
  intros Hnd Hne Hall. destruct ls as [|l ls]; [done|].
  apply Forall_cons in Hall as [-> Hall]. unfold union_columns. cbn [fold_left].
  rewrite (add_columns_fresh [] cols) by done. cbn [app]. clear Hne.
  induction Hall as [|l ls -> _ IH]; [done|].
  cbn [fold_left]. rewrite add_columns_known by done. apply IH.
Qed.

Lemma col_index_lookup (cols : list string) (i : nat) (k : string) :
  NoDup cols → cols !! i = Some k → col_index k cols = Some i.
Proof.
  intros Hnd. revert i. induction Hnd as [|c cols Hc Hnd IH]; intros i Hi; [done|].
  cbn [col_index]. destruct i as [|i]; cbn in Hi.
  - injection Hi as ->. by rewrite String.eqb_refl.
  - destruct (String.eqb_spec c k) as [->|_].
    + exfalso. apply Hc. by apply list_elem_of_lookup_2 in Hi.
    + by rewrite (IH i Hi).
Qed.

(** A row read in the schema it already has is the row. *)
Lemma reindex_row_same (cols : list string) (r : list cell) :
  NoDup cols → length r = length cols → reindex_row cols cols r = r.
Proof.
  intros Hnd Hlen. apply list_eq. intros i. unfold reindex_row.
  rewrite list_lookup_fmap.
  destruct (cols !! i) as [k|] eqn:Hk; cbn [fmap option_fmap option_map].
  - rewrite (col_index_lookup cols i k Hnd Hk).
    destruct (r !! i) as [c|] eqn:Hr; [done|].
    apply lookup_ge_None in Hr. apply lookup_lt_Some in Hk.
    unfold cell in *. lia.
  - symmetry. apply lookup_ge_None. apply lookup_ge_None in Hk.
    unfold cell in *. lia.
Qed.

Lemma chunked_go_concat {A} (fuel n : nat) (l : list A) :
  (1 ≤ n)%nat → (length l ≤ fuel)%nat → concat (chunked_go fuel n l) = l.
Proof.
  intros Hn. revert l. induction fuel as [|fuel IH]; intros l Hl.
  - destruct l; [done | cbn in Hl; lia].
  - destruct l as [|x l]; [done|]. cbn [chunked_go concat].
    rewrite IH; [apply take_drop|]. rewrite length_drop. cbn in *. lia.
Qed.

Lemma chunked_concat {A} (n : nat) (l : list A) :
  (1 ≤ n)%nat → concat (chunked n l) = l.
Proof. intros Hn. by apply chunked_go_concat. Qed.

Lemma chunked_nonempty {A} (n : nat) (x : A) (l : list A) :
  chunked n (x :: l) ≠ [].
Proof. done. Qed.

(** Frames with the columns [cols] and rows of that width, concatenated:
    the columns, and the rows one after the other. *)
Lemma concat_frames_same (cols : list string) (chunks : list (list (list cell))) :
  NoDup cols → chunks ≠ [] →
  Forall (Forall (λ r, length r = length cols)) chunks →
  concat_frames (mkDataFrame cols <$> chunks) = mkDataFrame cols (concat chunks).
Proof.
  intros Hnd Hne Hrows. unfold concat_frames.
  rewrite (union_columns_same cols).
  - f_equal. induction Hrows as [|ch chunks Hch _ IH]; [done|].
    cbn [fmap list_fmap concat columns rows]. f_equal.
    + clear IH. induction Hch as [|r ch Hr _ IH]; [done|].
      cbn [fmap list_fmap]. by rewrite reindex_row_same, IH.
    + destruct chunks as [|ch' chunks]; [done|]. by apply IH.
  - done.
  - by destruct chunks.
  - apply Forall_fmap, Forall_fmap. by apply Forall_true.
Qed.

(** *** Columns *)

(** [row[j] = f(row[j])] on one row. *)

Lemma set_col_rows (f : cell → cell) (df : DataFrame) (j : nat) :
  df_set_col df j (f <$> df_get_col df j)
  = mkDataFrame (columns df) (update_cell f j <$> rows df).
Proof.
  unfold df_set_col, df_get_col. f_equal.
  induction (rows df) as [|r rs IH]; [done|].
  cbn [fmap list_fmap zip_with]. by rewrite IH.
Qed.

Lemma fold_set_col (f : cell → cell) (js : list nat) (df : DataFrame) :
  fold_left (λ d j, df_set_col d j (f <$> df_get_col d j)) js df
  = mkDataFrame (columns df)
      ((λ r, fold_left (λ r j, update_cell f j r) js r) <$> rows df).
Proof.
  revert df. induction js as [|j js IH]; intros df.
  - cbn [fold_left]. destruct df as [cols rs]. cbn. f_equal.
    by rewrite list_fmap_id.
  - cbn [fold_left]. rewrite IH, set_col_rows. cbn [columns rows].
    by rewrite <- list_fmap_compose.
Qed.

Lemma update_cells_prefix (f : cell → cell) (r : list cell) (k : nat) :
  (k ≤ length r)%nat →
  fold_left (λ r j, update_cell f j r) (seq 0 k) r
  = (f <$> take k r) ++ drop k r.
Proof.
  unfold cell in *. induction k as [|k IH]; intros Hk.
  - cbn. by rewrite drop_0.
  - rewrite seq_S, fold_left_app, IH by lia. cbn [fold_left Nat.add].
    destruct (r !! k) as [x|] eqn:Hx;
      [|apply lookup_ge_None in Hx; lia].
    unfold update_cell, cell. rewrite (take_S_r r k x Hx), fmap_app.
    set (p := f <$> take k r).
    assert (length p = k) as Hlen
      by (unfold p; rewrite length_fmap, length_take; lia).
    rewrite lookup_app_r by lia. rewrite Hlen, Nat.sub_diag.
    rewrite (drop_S r x k Hx).
    change ((x :: drop (S k) r) !! 0%nat) with (Some x).
    change (default None (Some x)) with x.
    rewrite insert_app_r_alt by lia. rewrite Hlen, Nat.sub_diag.
    change (<[0%nat := f x]> (x :: drop (S k) r)) with (f x :: drop (S k) r).
    by rewrite <- app_assoc.
Qed.

(** [for col in df.columns: df[col] = f(df[col])] on a frame whose rows
    have the width of its columns: [f] on every cell. *)
Lemma map_columns_rows (f : cell → cell) (cols : list string)
    (rs : list (list cell)) :
  Forall (λ r, length r = length cols) rs →
  map_columns f (mkDataFrame cols rs)
  = mkDataFrame cols ((λ r : list cell, f <$> r) <$> rs).
Proof.
  intros Hrs. unfold map_columns. rewrite fold_set_col. cbn [columns rows].
  f_equal. apply Forall_fmap_ext_1.
  eapply Forall_impl; [exact Hrs|]. intros r Hr. cbn beta.
  rewrite update_cells_prefix by (unfold cell in *; lia).
  rewrite <- Hr, firstn_all, drop_all. apply app_nil_r.
Qed.



(** *** Loading the table *)

Lemma fill_missing_field (E : Env) (f : string) :
  fill_missing E (if is_na E f then None else Some (PStr f))
  = Some (PStr (if is_na E f then "" else f)).
Proof. by destruct (is_na E f). Qed.

Lemma csv_rows_text (E : Env) (n : nat) (lines : list (list string)) :
  (λ r : list cell, fill_missing E <$> r) <$> omap (csv_row_cells E n) lines
  = (λ r : list string, (λ t, Some (PStr t)) <$> r)
      <$> omap (csv_row_text E n) lines.
Proof.
  induction lines as [|l lines IH]; [done|]. cbn [omap list_omap].
  unfold csv_row_cells at 1, csv_row_text at 1.
  destruct (n <? length l)%nat; [exact IH|].
  cbn [fmap list_fmap]. rewrite IH. f_equal.
  rewrite !fmap_app, !fmap_replicate, <- !list_fmap_compose. f_equal.
  apply list_fmap_ext. intros i f _. apply fill_missing_field.
Qed.

Lemma csv_row_cells_width (E : Env) (n : nat) (lines : list (list string)) :
  Forall (λ r : list cell, length r = n) (omap (csv_row_cells E n) lines).
Proof.
  induction lines as [|l lines IH]; [constructor|]. cbn [omap list_omap].
  unfold csv_row_cells at 1.
  destruct (Nat.ltb_spec n (length l)); [exact IH|].
  constructor; [|exact IH].
  rewrite length_app, length_fmap, length_replicate. lia.
Qed.

Lemma chunked_go_Forall {A} (P : A → Prop) (fuel n : nat) (l : list A) :
  Forall P l → Forall (Forall P) (chunked_go fuel n l).
Proof.
  revert l. induction fuel as [|fuel IH]; intros l Hl; [constructor|].
  destruct l as [|x l]; [constructor|]. cbn [chunked_go]. constructor.
  - by apply Forall_take.
  - apply IH. by apply Forall_drop.
Qed.

Lemma concat_fmap_rows {A B} (g : A → B) (ls : list (list A)) :
  concat ((λ l : list A, g <$> l) <$> ls) = g <$> concat ls.
Proof.
  induction ls as [|l ls IH]; [done|].
  cbn [fmap list_fmap concat]. by rewrite fmap_app, <- IH.
Qed.


(** Reading a table in chunks, filling the missing values and putting the
    chunks together gives the frame of text of the table. *)
Lemma load_frame (E : Env) (chunk_size : Z) (header : list string)
    (lines : list (list string)) :
  (1 ≤ chunk_size)%Z →
  NoDup (mangle_dupe_cols E header) →
  ∃ chunks,
    read_csv_frames E chunk_size (header :: lines) = Ret chunks ∧
    pd_concat (map_columns (fill_missing E) <$> chunks)
    = Ret (text_frame E header lines).
Proof.
  intros Hc Hnd. unfold read_csv_frames, text_frame. cbv zeta.
  set (names := mangle_dupe_cols E header) in *.
  rewrite <- csv_rows_text.
  pose proof (csv_row_cells_width E (length names) lines) as Hwidth.
  destruct (omap (csv_row_cells E (length names)) lines) as [|r rs] eqn:Hrs.
  - eexists. split; [reflexivity|]. cbn [fmap list_fmap].
    rewrite map_columns_rows by constructor. cbn [pd_concat fmap list_fmap].
    f_equal. apply (concat_frames_same names [[]]); [done|done|].
    by repeat constructor.
  - eexists. split; [reflexivity|].
    set (chunks := chunked (Z.to_nat chunk_size) (r :: rs)).
    assert (Forall (Forall (λ r : list cell, length r = length names)) chunks)
      as Hchunks by by apply chunked_go_Forall.
    assert (chunks ≠ []) as Hne by done.
    assert (map_columns (fill_missing E) <$> (mkDataFrame names <$> chunks)
            = mkDataFrame names
                <$> ((λ ch : list (list cell),
                        (λ r : list cell, fill_missing E <$> r) <$> ch)
                       <$> chunks)) as ->.
    { rewrite <- !list_fmap_compose. apply Forall_fmap_ext_1.
      eapply Forall_impl; [exact Hchunks|]. intros ch Hch. cbn [compose].
      by apply map_columns_rows. }
    unfold pd_concat.
    destruct chunks as [|ch chunks'] eqn:Hchunks_eq; [done|].
    rewrite <- Hchunks_eq in *. clear Hchunks_eq ch chunks'.
    destruct (mkDataFrame names <$> _) as [|d ds] eqn:Hfr.
    { apply fmap_nil_inv, fmap_nil_inv in Hfr. done. }
    rewrite <- Hfr. f_equal. rewrite concat_frames_same.
    + f_equal. rewrite concat_fmap_rows.
      unfold chunks. rewrite chunked_concat by lia. done.
    + done.
    + intros Hnil. by apply fmap_nil_inv in Hnil.
    + apply Forall_fmap. eapply Forall_impl; [exact Hchunks|].
      intros ch Hch. cbn [compose]. apply Forall_fmap.
      eapply Forall_impl; [exact Hch|]. intros r' Hr'. cbn [compose].
      by rewrite length_fmap.
Qed.


(** *** The stage *)







Lemma data_dirs_differ (E : Env) : RAW_DATA_DIR E ≠ INTERIM_DATA_DIR E.
Proof.
  unfold RAW_DATA_DIR, INTERIM_DATA_DIR. intros H.
  apply (inj (String.app _)) in H. discriminate.
Qed.

Lemma merged_csv_not_dir (E : Env) :
  merged_csv E ≠ INTERIM_DATA_DIR E ∧ merged_csv E ≠ RAW_DATA_DIR E.
Proof.
  split.
  - unfold merged_csv. apply string_app_ne. discriminate.
  - unfold merged_csv, INTERIM_DATA_DIR, RAW_DATA_DIR. intros H.
    rewrite string_app_assoc in H. apply (inj (String.app _)) in H.
    discriminate.
Qed.

Lemma csv_lines_after_setup (E : Env) (s : Store) :
  csv_lines E (after_setup E s) (merged_csv E) = csv_lines E s (merged_csv E).
Proof.
  destruct (merged_csv_not_dir E) as [H1 H2].
  unfold csv_lines, after_setup. cbn [fs].
  by rewrite !lookup_insert_ne by done.
Qed.

(** [convert] is its directory setup followed by its guarded body. *)
Lemma convert_run (E : Env) (chunk_size : Z) (s : Store) :
  mkdir_ok (INTERIM_DATA_DIR E) s →
  mkdir_ok (RAW_DATA_DIR E) s →
  let body := convert_body E chunk_size (after_setup E s) in
  convert E chunk_size s
  = match out body with
    | Ret _ =>
        mkRun (Ret tt) (store body)
          ([EvMkdir (INTERIM_DATA_DIR E)] ++ [EvMkdir (RAW_DATA_DIR E)]
           ++ events body)
    | Raise e =>
        mkRun (Ret tt) (store body)
          ([EvMkdir (INTERIM_DATA_DIR E)] ++ [EvMkdir (RAW_DATA_DIR E)]
           ++ events body
           ++ [EvLog Error ("Conversion failed: " +:+ exn_name e)])
    end.
Proof.
  intros Hi Hr body. unfold convert.
  rewrite (bind_ok _ _ _ _ _ _ (mkdir_run _ s Hi)).
  set (s1 := mkStore _ _).
  assert (mkdir_ok (RAW_DATA_DIR E) s1) as Hr1.
  { unfold mkdir_ok, s1. cbn [fs].
    by rewrite lookup_insert_ne by (apply not_eq_sym, data_dirs_differ). }
  rewrite (bind_ok _ _ _ _ _ _ (mkdir_run _ s1 Hr1)).
  unfold s1. cbn [fs FETCHER_BASE_PARAMS]. fold (after_setup E s).
  unfold try_except. subst body. cbv zeta.
  destruct (convert_body E chunk_size (after_setup E s)) as [[[]|e] st evs];
    by cbn [out store events log emit].
Qed.

Lemma mkdir_fails (p : string) (s : Store) :
  ¬ mkdir_ok p s → mkdir p s = mkRun (Raise FileExistsError) s [EvMkdir p].
Proof.
  unfold mkdir_ok, mkdir. intros H.
  destruct (fs s !! p) as [[| | |]|]; try done; exfalso; apply H; by auto.
Qed.

Lemma mkdir_ok_dec (p : string) (s : Store) : mkdir_ok p s ∨ ¬ mkdir_ok p s.
Proof.
  unfold mkdir_ok. destruct (fs s !! p) as [[| | |]|]; auto;
    right; intros [?|?]; done.
Qed.





(** C7 (as amended).  Once the two data directories are in place, a run
    of [convert] returns to its caller whatever happens: a failure of the
    body of the stage, in loading, in the coercion or in both attempts to
    write, is caught, and the last thing the run does is log it. *)
Theorem convert_returns_after_setup (E : Env) (chunk_size : Z) (s : Store) :
  mkdir_ok (INTERIM_DATA_DIR E) s →
  mkdir_ok (RAW_DATA_DIR E) s →
  let r := convert E chunk_size s in
  out r = Ret tt ∧
  ∀ e, out (convert_body E chunk_size (after_setup E s)) = Raise e →
       last (events r)
       = Some (EvLog Error ("Conversion failed: " +:+ exn_name e)).
Proof.
  intros Hi Hr r. unfold r. rewrite (convert_run E chunk_size s Hi Hr).
  cbv zeta. destruct (out (convert_body E chunk_size (after_setup E s)));
    cbn [out events]; split; try done.
  intros e' [= <-]. rewrite !app_assoc. apply last_snoc.
Qed.

Lemma convert_returns_after_setup_witness :
  let r := convert local_env 1000 (store_of []) in
  out r = Ret tt ∧
  ∀ e, out (convert_body local_env 1000 (after_setup local_env (store_of [])))
       = Raise e →
       last (events r)
       = Some (EvLog Error ("Conversion failed: " +:+ exn_name e)).
Proof.
  apply (convert_returns_after_setup local_env 1000 (store_of []));
    left; reflexivity.
Defined.

(** With no interim table the body fails, and [convert] logs the failure
    and returns. *)
Example convert_without_table :
  out (convert_body local_env 1000 (after_setup local_env (store_of [])))
  = Raise FileNotFoundError ∧
  out (convert local_env 1000 (store_of [])) = Ret tt ∧
  last (events (convert local_env 1000 (store_of [])))
  = Some (EvLog Error "Conversion failed: FileNotFoundError").
Proof. vm_compute. repeat split; reflexivity. Qed.

(** C7, as stated, fails: where the interim directory is a regular file,
    [mkdir] raises before the [try] of [convert] is entered, and the
    exception leaves the stage. *)
Lemma convert_raises_in_setup :
  out (convert local_env 1000 interim_is_file) = Raise FileExistsError.
Proof. vm_compute. reflexivity. Qed.

(** * Further properties *)

(** ** The pull stage: failed fetches, [force], the defaults *)

(** An index that is not skipped and whose fetch gives no response. *)
Lemma pull_page_no_response (E : Env) (force : bool) (i : Z) (s : Store) :
  fs s !! page_path E i = None ∨ force = true →
  fetch_data E (page_request (FETCHER_BASE_PARAMS s) i) = NoResponse →
  pull_page E force i s =
    mkRun (Ret tt)
      (mkStore (fs s) (page_request (FETCHER_BASE_PARAMS s) i))
      [EvSleep 1; EvFetch (page_request (FETCHER_BASE_PARAMS s) i)].
Proof.
  intros Hgo Hp. unfold page_request in *.
  assert (bool_decide (is_Some (fs s !! page_path E i)) && negb force = false)
    as Hb.
  { destruct Hgo as [Hn | ->]; [|by rewrite andb_false_r].
    rewrite Hn. rewrite bool_decide_eq_false_2; [done|]. by intros [? ?]. }
  unfold pull_page, bind, path_exists. simpl. rewrite Hb. simpl.
  by rewrite Hp.
Qed.

Lemma opened_app (a b : list event) : opened (a ++ b) = opened a ++ opened b.
Proof. apply omap_app. Qed.

Lemma persisted_no_response (E : Env) (p : gmap string string) :
  fetch_data E p = NoResponse → persisted E p = None.
Proof. intros H. unfold persisted. by rewrite H. Qed.

(** The loop over indices each of which is settled: fetched once, and
    stored where the fetch gave a payload. *)
Lemma pull_loop_settles (E : Env) (force : bool) (p0 : gmap string string)
    (l : list Z) (s0 : Store) :
  NoDup l →
  (force = true ∨ ∀ i, i ∈ l → fs s0 !! page_path E i = None) →
  (∀ i, i ∈ l → fetch_settles E (page_request p0 i)) →
  ∀ s,
    (FETCHER_BASE_PARAMS s = p0 ∨ ∃ j, FETCHER_BASE_PARAMS s = page_request p0 j) →
    (∀ i, i ∈ l → fs s !! page_path E i = fs s0 !! page_path E i) →
    let r := for_each (pull_page E force) l s in
    out r = Ret tt ∧
    fetch_args (events r) = page_request p0 <$> l ∧
    opened (events r) = (page_writes E p0 l).*1 ∧
    written (events r) = page_writes E p0 l ∧
    (∀ i, i ∈ l → fs (store r) !! page_path E i = page_after E p0 s0 i) ∧
    (∀ p, (∀ i, i ∈ l → p ≠ page_path E i) → fs (store r) !! p = fs s !! p).
Proof.
  intros Hnd. induction Hnd as [|i l Hi Hnd IH]; intros Hgo Hok s Hp Hsame.
  - cbn. repeat split; try done. intros i Hi. by apply elem_of_nil in Hi.
  - assert (page_request (FETCHER_BASE_PARAMS s) i = page_request p0 i) as Hreq.
    { destruct Hp as [-> | [j ->]]; [done | apply page_request_twice]. }
    assert (fs s !! page_path E i = None ∨ force = true) as Hgo_i.
    { destruct Hgo as [-> | Hfresh]; [by right|]. left.
      rewrite Hsame by by left. apply Hfresh. by left. }
    assert (∃ m evs,
              pull_page E force i s
              = mkRun (Ret tt) (mkStore m (page_request p0 i)) evs
              ∧ fetch_args evs = [page_request p0 i]
              ∧ opened evs = (page_writes E p0 [i]).*1
              ∧ written evs = page_writes E p0 [i]
              ∧ m !! page_path E i = page_after E p0 s i
              ∧ ∀ p, p ≠ page_path E i → m !! p = fs s !! p)
      as (m & evs1 & Hrun & Hf1 & Ho1 & Hw1 & Hm1 & Hm2).
    { unfold page_writes, page_after. cbn [omap list_omap].
      destruct (Hok i ltac:(by left)) as [Hno | [data Hdata]].
      - pose proof (pull_page_no_response E force i s Hgo_i) as H.
        rewrite Hreq in H. specialize (H Hno).
        rewrite (persisted_no_response _ _ Hno).
        by exists (fs s), [EvSleep 1; EvFetch (page_request p0 i)].
      - pose proof (pull_page_fetch E force i s data Hgo_i) as H.
        rewrite Hreq in H. specialize (H Hdata). rewrite Hdata.
        eexists _, _. split; [exact H|]. repeat split; try done.
        + apply lookup_insert_eq.
        + intros p Hne. by rewrite lookup_insert_ne. }
    cbn [for_each]. rewrite (bind_ok _ _ _ _ _ _ Hrun).
    set (s1 := mkStore m (page_request p0 i)).
    assert (∀ j, j ∈ l → page_path E j ≠ page_path E i) as Hne.
    { intros j Hj Heq. apply page_path_inj in Heq. by subst. }
    destruct (IH) with (s := s1) as (Hout & Hf & Ho & Hw & Hfs & Hother).
    + destruct Hgo as [-> | Hfresh]; [by left|]. right. intros j Hj.
      apply Hfresh. by right.
    + intros j Hj. apply Hok. by right.
    + right. by exists i.
    + intros j Hj. unfold s1. cbn [fs]. rewrite Hm2 by by apply Hne.
      apply Hsame. by right.
    + cbn [out store events]. split; [done|].
      split; [by rewrite fetch_args_app, Hf1, Hf|].
      split.
      { rewrite opened_app, Ho1, Ho. unfold page_writes. cbn [omap list_omap].
        destruct (persisted E (page_request p0 i)); done. }
      split.
      { rewrite written_app, Hw1, Hw. unfold page_writes. cbn [omap list_omap].
        destruct (persisted E (page_request p0 i)); done. }
      split.
      * intros j Hj. apply elem_of_cons in Hj as [-> | Hj]; [|by apply Hfs].
        rewrite Hother by (intros k Hk; apply not_eq_sym; by apply Hne).
        unfold s1. cbn [fs]. rewrite Hm1. unfold page_after.
        destruct (persisted E (page_request p0 i)); [done|].
        apply Hsame. by left.
      * intros p Hp'. rewrite Hother by (intros k Hk; apply Hp'; by right).
        unfold s1. cbn [fs]. apply Hm2. apply Hp'. by left.
Qed.

Lemma range_elem (start_page end_page i : Z) :
  i ∈ seqZ start_page (end_page - start_page) ↔ (start_page ≤ i < end_page)%Z.
Proof. rewrite elem_of_seqZ. lia. Qed.

(** X1.  A fetch that gives no response neither aborts the run nor is it
    tried again.  On an explicit valid range, with no page of the range
    stored yet and fetches that each give a payload or no response,
    [pull] returns; it has fetched every index of the range exactly once,
    in ascending order; it has written one file for each index whose
    fetch gave a payload and none for the others, whose page stays
    absent. *)
Theorem pull_failed_fetch_is_passed_over (E : Env) (start_page end_page : Z)
    (force : bool) (s : Store) :
  (start_page < end_page)%Z →
  mkdir_ok (RAW_DATA_DIR E) s →
  (∀ i, (start_page ≤ i < end_page)%Z → fs s !! page_path E i = None) →
  (∀ i, (start_page ≤ i < end_page)%Z →
     fetch_settles E (page_request (FETCHER_BASE_PARAMS s) i)) →
  let p0 := FETCHER_BASE_PARAMS s in
  let pages := seqZ start_page (end_page - start_page) in
  let r := pull E start_page (Some end_page) force s in
  out r = Ret tt ∧
  fetch_args (events r) = page_request p0 <$> pages ∧
  written (events r) = page_writes E p0 pages ∧
  opened (events r) = (page_writes E p0 pages).*1 ∧
  (∀ i, i ∈ pages →
     fs (store r) !! page_path E i = File <$> persisted E (page_request p0 i)).
Proof.
  intros Hlt Hdir Hfresh Hok p0 pages r.
  pose proof (pull_valid_range E start_page end_page force s Hlt Hdir) as H1.
  cbv zeta in H1. fold pages in H1. fold r in H1.
  set (s1 := mkStore _ _) in H1.
  assert (∀ i, i ∈ pages → fs s1 !! page_path E i = None) as Hfresh1.
  { intros i Hi. unfold s1. cbn [fs].
    rewrite lookup_insert_ne by (apply not_eq_sym, page_path_not_raw).
    apply Hfresh. by apply range_elem. }
  destruct (pull_loop_settles E force p0 pages s1) with (s := s1)
    as (Hout & Hf & Ho & Hw & Hfs & _).
  { apply NoDup_seqZ. }
  { by right. }
  { intros i Hi. apply Hok. by apply range_elem. }
  { by left. }
  { done. }
  rewrite H1. cbn [out store events].
  split; [done|]. split; [by rewrite fetch_args_app|].
  split; [by rewrite written_app|]. split; [by rewrite opened_app|].
  intros i Hi. rewrite (Hfs i Hi). unfold page_after.
  rewrite (Hfresh1 i Hi). by destruct (persisted E (page_request p0 i)).
Qed.

(** A remote that has page 0 and fails on every other page. *)
Lemma pull_failed_fetch_is_passed_over_witness :
  let E := example_env
             (λ p, if bool_decide (p !! "page" = Some "0")
                   then Response (json_text "{'list': []}") else NoResponse)
             [] in
  let p0 := FETCHER_BASE_PARAMS (store_of []) in
  let pages := seqZ 0 (2 - 0) in
  let r := pull E 0 (Some 2%Z) false (store_of []) in
  out r = Ret tt ∧
  fetch_args (events r) = page_request p0 <$> pages ∧
  written (events r) = page_writes E p0 pages ∧
  opened (events r) = (page_writes E p0 pages).*1 ∧
  (∀ i, i ∈ pages →
     fs (store r) !! page_path E i = File <$> persisted E (page_request p0 i)).
Proof.
  apply (pull_failed_fetch_is_passed_over
           (example_env
              (λ p, if bool_decide (p !! "page" = Some "0")
                    then Response (json_text "{'list': []}") else NoResponse)
              []) 0 2 false (store_of [])).
  - lia.
  - left. reflexivity.
  - intros i _. reflexivity.
  - intros i Hi. assert (i = 0 ∨ i = 1)%Z as [-> | ->] by lia.
    + right. exists (json_text "{'list':[]}"). vm_compute. reflexivity.
    + left. vm_compute. reflexivity.
Defined.



(** X3.  The page file is opened for writing before the response is
    decoded.  When the body of a response is no JSON, [response.json()]
    raises inside the [with] block: the exception leaves [pull], and an
    empty page file stays behind, which a later run with [force] off
    takes for a stored page and skips. *)
Theorem pull_page_decode_failure_leaves_empty_file (E : Env) (force : bool)
    (i : Z) (s : Store) (content : bytes) (e : exn) :
  fs s !! page_path E i = None ∨ force = true →
  fetch_data E (page_request (FETCHER_BASE_PARAMS s) i) = Response content →
  response_json E content = Raise e →
  let r := pull_page E force i s in
  out r = Raise e ∧
  opened (events r) = [page_path E i] ∧
  written (events r) = [] ∧
  fs (store r) !! page_path E i = Some (File []) ∧
  pull_page E false i (store r)
  = mkRun (Ret tt) (store r) [EvLog Info (skip_msg i)].
Proof.
  intros Hgo Hfetch Hjson r.
  assert (r = mkRun (Raise e)
                (mkStore (<[page_path E i := File []]> (fs s))
                   (page_request (FETCHER_BASE_PARAMS s) i))
                [EvSleep 1; EvFetch (page_request (FETCHER_BASE_PARAMS s) i);
                 EvOpenWb (page_path E i)]) as ->.
  { unfold page_request in *.
    assert (bool_decide (is_Some (fs s !! page_path E i)) && negb force = false)
      as Hb.
    { destruct Hgo as [Hn | ->]; [|by rewrite andb_false_r].
      rewrite Hn. rewrite bool_decide_eq_false_2; [done|]. by intros [? ?]. }
    unfold r, pull_page, bind, path_exists. simpl. rewrite Hb. simpl.
    rewrite Hfetch. simpl. rewrite Hjson. reflexivity. }
  cbn [out store events]. split; [done|]. split; [done|]. split; [done|].
  split; [apply lookup_insert_eq|].
  apply pull_page_skip. cbn [fs]. rewrite lookup_insert_eq. by eexists.
Qed.

Lemma pull_page_decode_failure_leaves_empty_file_witness :
  let E := example_env (λ _, Response (utf8 "<html>")) [] in
  let r := pull_page E false 7 (store_of []) in
  out r = Raise JSONDecodeError ∧
  opened (events r) = [page_path E 7] ∧
  written (events r) = [] ∧
  fs (store r) !! page_path E 7 = Some (File []) ∧
  pull_page E false 7 (store r)
  = mkRun (Ret tt) (store r) [EvLog Info (skip_msg 7)].
Proof.
  apply (pull_page_decode_failure_leaves_empty_file
           (example_env (λ _, Response (utf8 "<html>")) []) false 7
           (store_of []) (utf8 "<html>") JSONDecodeError).
  - left. reflexivity.
  - reflexivity.
  - vm_compute. reflexivity.
Defined.

(** X4.  Without an end page and in development mode, [pull] runs as it
    does over the one page [start_page]: the run is that of the explicit
    range from [start_page] to [start_page + 1]. *)
Theorem pull_dev_mode_is_one_page (E : Env) (start_page : Z) (force : bool)
    (s : Store) :
  DEV_MODE E = true →
  pull E start_page None force s
  = pull E start_page (Some (start_page + 1)%Z) force s
  ∧ pull_range E start_page None (FETCHER_BASE_PARAMS s) = [start_page].
Proof.
  intros Hdev. split.
  - unfold pull, pull_end_page. rewrite Hdev.
    by rewrite (proj2 (Z.leb_gt (start_page + 1) start_page)) by lia.
  - unfold pull_range, resolved_end_page. rewrite Hdev.
    replace (start_page + 1 - start_page)%Z with 1%Z by lia. done.
Qed.

Lemma pull_dev_mode_is_one_page_witness :
  pull (example_env spaced_remote []) 4 None false (store_of [])
  = pull (example_env spaced_remote []) 4 (Some (4 + 1)%Z) false (store_of [])
  ∧ pull_range (example_env spaced_remote []) 4 None
      (FETCHER_BASE_PARAMS (store_of [])) = [4%Z].
Proof.
  apply (pull_dev_mode_is_one_page (example_env spaced_remote []) 4 false
           (store_of [])).
  reflexivity.
Defined.



(** X6.  [DEV_MODE] is read as text and tested for truth: development
    mode is off only when the variable is set to the empty text.  Any
    other setting, ["False"] and ["0"] among them, leaves it on, as does
    leaving the variable unset. *)
Theorem dev_mode_off_only_for_empty_text (environ : gmap string string) :
  py_truthy (config_DEV_MODE environ) = false
  ↔ environ !! "DEV_MODE" = Some EmptyString.
Proof.
  unfold config_DEV_MODE. destruct (environ !! "DEV_MODE") as [v|]; cbn.
  - rewrite negb_false_iff, String.eqb_eq. split; [by intros -> | by intros [= ->]].
  - split; discriminate.
Qed.

(** X7.  The path of a page is a function of its index alone, distinct
    indices have distinct paths, and no page path is one of the data
    directories or of the outputs of the other stages: [pull] cannot
    overwrite one page with another, nor the interim table or the Parquet
    file. *)
Theorem page_paths_do_not_collide (E : Env) (i j : Z) :
  (page_path E i = page_path E j ↔ i = j) ∧
  page_path E i ≠ RAW_DATA_DIR E ∧
  page_path E i ≠ INTERIM_DATA_DIR E ∧
  page_path E i ≠ merged_csv E ∧
  page_path E i ≠ merged_parquet E.
Proof.
  split; [split; [apply page_path_inj | by intros ->]|].
  split; [apply page_path_not_raw|].
  unfold page_path, merged_csv, merged_parquet, INTERIM_DATA_DIR, RAW_DATA_DIR.
  repeat split; intros H; rewrite ?string_app_assoc in H;
    apply (inj (String.app _)) in H; discriminate.
Qed.

(** ** From [pull] to [merge]: which files are pages *)

Lemma strip_prefix_app (p s : string) : strip_prefix p (p +:+ s) = Some s.
Proof.
  induction p as [|a p IH]; [by destruct s|].
  change (strip_prefix (String a p) (String a (p +:+ s)) = Some s).
  cbn [strip_prefix]. by rewrite Ascii.eqb_refl.
Qed.










(** X9.  The outputs of the stages are never taken for pages: the
    interim table is outside the raw-data directory, and the Parquet
    file, which [convert] writes into the raw-data directory next to the
    pages, does not end in [.json].  [merge] does not read them back. *)
Theorem stage_outputs_are_not_globbed (E : Env) (s : Store) :
  (merged_csv E ∉ glob_json E s) ∧ (merged_parquet E ∉ glob_json E s).
Proof.
  split; [apply merged_csv_not_globbed|].
  unfold glob_json. rewrite list_elem_of_In, filter_In. intros [_ H].
  apply andb_true_iff in H as [H _]. revert H.
  unfold glob_match_json, merged_parquet.
  replace (RAW_DATA_DIR E +:+ "/merged.parquet")
    with ((RAW_DATA_DIR E +:+ "/") +:+ "merged.parquet")
    by (by rewrite string_app_assoc).
  rewrite strip_prefix_app. by vm_compute.
Qed.

(** ** The merge stage: empty input, chunk sizes, what is left alone *)

(** X10.  With no page file [merge] logs a warning and returns at once,
    whatever the chunk size, a zero one included: nothing is read or
    written and the store is as it was. *)
Theorem merge_without_files (E : Env) (chunk_size : Z) (s : Store) :
  glob_json E s = [] →
  merge E chunk_size s
  = mkRun (Ret tt) s
      [EvLog Info ("Merging dataset (chunk size: " +:+ pretty chunk_size
                   +:+ ")");
       EvLog Info ("Found " +:+ pretty 0%Z +:+ " files to merge");
       EvLog Warning "No files found to merge"].
Proof.
  intros Hglob. unfold merge.
  rewrite (bind_ok _ _ _ _ _ _ (log_run _ _ s)).
  rewrite (bind_ok (glob E) _ s (glob_json E s) s [] eq_refl).
  rewrite (bind_ok _ _ _ _ _ _ (log_run _ _ s)).
  rewrite Hglob. by cbn [out store events log emit app length Z.of_nat].
Qed.

Lemma merge_without_files_witness :
  merge (example_env (λ _, NoResponse) []) 0 (store_of [])
  = mkRun (Ret tt) (store_of [])
      [EvLog Info ("Merging dataset (chunk size: " +:+ pretty 0%Z +:+ ")");
       EvLog Info ("Found " +:+ pretty 0%Z +:+ " files to merge");
       EvLog Warning "No files found to merge"].
Proof.
  apply (merge_without_files (example_env (λ _, NoResponse) []) 0
           (store_of [])).
  reflexivity.
Defined.

Lemma batch_files_nonpositive (files : list string) (chunk_size : Z) :
  files ≠ [] → (chunk_size ≤ 0)%Z → batch_files files chunk_size = [].
Proof.
  intros Hne Hc. unfold batch_files, py_range.
  destruct (Z.eqb_spec chunk_size 0) as [->|Hz]; [done|].
  rewrite (proj2 (Z.ltb_ge 0 chunk_size)) by lia.
  rewrite seqZ_nil; [done|].
  assert (1 ≤ Z.of_nat (length files))%Z by (destruct files; [done|cbn; lia]).
  apply Z.lt_succ_r. apply Z.div_lt_upper_bound; lia.
Qed.

(** X11.  The chunk size is not checked.  With page files present, a
    negative chunk size gives a loop with no iteration: [merge] reads and
    writes nothing and still reports success, with zero rows; a chunk
    size of zero makes [range] raise [ValueError], which leaves the
    stage.  In both cases the store is as it was. *)
Theorem merge_nonpositive_chunk_size (E : Env) (chunk_size : Z) (s : Store) :
  glob_json E s ≠ [] →
  (chunk_size ≤ 0)%Z →
  let r := merge E chunk_size s in
  store r = s ∧
  csv_writes (events r) = [] ∧
  (chunk_size = 0%Z → out r = Raise ValueError) ∧
  ((chunk_size < 0)%Z →
   out r = Ret tt ∧
   last (events r) = Some (EvLog Success (merge_done_msg E 0))).
Proof.
  intros Hfiles Hc r.
  destruct (merge_run E chunk_size s) as (evs & o & Hrun & Hw & _ & Hzero & Hok).
  assert (batch_tables E chunk_size s = []) as Hnone.
  { unfold batch_tables. by rewrite batch_files_nonpositive. }
  rewrite Hnone in Hrun, Hw, Hok. unfold r. rewrite Hrun.
  cbn [out store events]. split; [done|]. split; [done|]. split.
  - intros Hz. by apply Hzero.
  - intros Hneg. apply Hok; [done | lia].
Qed.

Lemma merge_nonpositive_chunk_size_witness :
  let r := merge local_env (-5) scenario_pages in
  store r = scenario_pages ∧
  csv_writes (events r) = [] ∧
  ((-5)%Z = 0%Z → out r = Raise ValueError) ∧
  ((-5 < 0)%Z →
   out r = Ret tt ∧
   last (events r) = Some (EvLog Success (merge_done_msg local_env 0))).
Proof.
  apply (merge_nonpositive_chunk_size local_env (-5) scenario_pages).
  - vm_compute. discriminate.
  - lia.
Defined.

(** X12.  [merge] writes to the interim table and to nothing else: every
    other path of the store, the page files among them, holds after the
    run what it held before, and the request parameters are untouched. *)
Theorem merge_touches_only_the_interim_table (E : Env) (chunk_size : Z)
    (s : Store) :
  let r := merge E chunk_size s in
  (∀ p, p ≠ merged_csv E → fs (store r) !! p = fs s !! p) ∧
  (∀ f, f ∈ glob_json E s → fs (store r) !! f = fs s !! f) ∧
  FETCHER_BASE_PARAMS (store r) = FETCHER_BASE_PARAMS s.
Proof.
  intros r.
  destruct (merge_run E chunk_size s) as (evs & o & Hrun & _).
  assert (∀ p, p ≠ merged_csv E → fs (store r) !! p = fs s !! p) as Hp.
  { intros p Hne. unfold r. rewrite Hrun. cbn [store].
    destruct (batch_tables E chunk_size s); [done|]. cbn [fs].
    by rewrite lookup_insert_ne. }
  split; [done|]. split.
  - intros f Hf. apply Hp. intros ->. by apply (merged_csv_not_globbed E s).
  - unfold r. rewrite Hrun. cbn [store].
    by destruct (batch_tables E chunk_size s).
Qed.



Lemma batch_files_sizes (files : list string) (chunk_size : Z) :
  Forall (λ b : list string, (length b ≤ Z.to_nat chunk_size)%nat)
    (batch_files files chunk_size).
Proof.
  unfold batch_files. destruct (py_range _ _ _) as [starts|]; [|constructor].
  apply Forall_fmap, Forall_true. intros a. cbn [compose]. unfold py_slice.
  rewrite length_take. replace (a + chunk_size - a)%Z with chunk_size by lia.
  lia.
Qed.

(** X14.  With a chunk size of at least one, the batches of [merge] are
    the page files cut in order into groups of at most [chunk_size]:
    every file is in exactly one batch, none is left out or read twice,
    and no batch holds more than [chunk_size] files. *)
Theorem merge_batches_partition_the_files (files : list string)
    (chunk_size : Z) :
  (1 ≤ chunk_size)%Z →
  concat (batch_files files chunk_size) = files ∧
  Forall (λ b : list string, (length b ≤ Z.to_nat chunk_size)%nat)
    (batch_files files chunk_size).
Proof.
  intros Hc. split; [by apply batch_files_partition | apply batch_files_sizes].
Qed.

Lemma merge_batches_partition_the_files_witness :
  concat (batch_files ["a"; "b"; "c"; "d"; "e"] 2) = ["a"; "b"; "c"; "d"; "e"] ∧
  Forall (λ b : list string, (length b ≤ Z.to_nat 2)%nat)
    (batch_files ["a"; "b"; "c"; "d"; "e"] 2).
Proof.
  apply (merge_batches_partition_the_files ["a"; "b"; "c"; "d"; "e"] 2). lia.
Defined.






(** The scenario of the specification, in one batch: three rows under
    the header [id, title], the first two with an empty title. *)
Example merge_scenario_in_one_batch :
  fs (store (merge local_env 1000 scenario_pages)) !! merged_csv local_env
  = Some (CsvFile [["id"; "title"]; ["1"; ""]; ["2"; ""]; ["3"; "x"]]).
Proof. vm_compute. reflexivity. Qed.

(** ** The convert stage: loading, the two writes, what is left alone *)

(** With a chunk size of at least one, loading gives the frame of text of
    the table, or the error of reading it, and has no effect. *)
Lemma load_exact (E : Env) (path : string) (chunk_size : Z) (s : Store) :
  (1 ≤ chunk_size)%Z →
  (∀ header lines, csv_lines E s path = Ret (header :: lines) →
                   NoDup (mangle_dupe_cols E header)) →
  load_large_csv_to_pd E path chunk_size s
  = mkRun (loaded E (csv_lines E s path)) s [].
Proof.
  intros Hc Hnd. unfold load_large_csv_to_pd, bind, read_csv, lift, loaded.
  rewrite (proj2 (Z.ltb_ge chunk_size 1)) by lia.
  destruct (csv_lines E s path) as [[|header lines]|e] eqn:Hlines.
  - by cbn [read_csv_frames out store events].
  - destruct (load_frame E chunk_size header lines Hc (Hnd _ _ eq_refl))
      as (chunks & Hread & Hconcat).
    rewrite Hread. cbn [out store events]. by rewrite Hconcat.
  - by cbn [out store events].
Qed.






(** The table of the example loads as five rows: the long line is
    skipped, the short one is filled. *)
Example load_mixed_table :
  out (load_large_csv_to_pd local_env (merged_csv local_env) 2 mixed_table)
  = Ret mixed_frame.
Proof. vm_compute. reflexivity. Qed.

(** *** The body of [convert] on a table that loads *)










(** Both writes fail: the second error is the one reported. *)
Example convert_both_writes_fail :
  let r := convert (parquet_env (Some ValueError) (Some OSError)) 2 mixed_table in
  out r = Ret tt ∧
  fs (store r) !! merged_parquet local_env = None ∧
  parquet_writes (events r) = [mixed_frame; mixed_frame] ∧
  last (events r) = Some (EvLog Error "Conversion failed: OSError").
Proof. vm_compute. repeat split; reflexivity. Qed.

(** *** The chunk size, and the failures of loading *)

Lemma bind_same_run {A B} (c c' : M A) (k : A → M B) (s : Store) :
  c s = c' s → bind c k s = bind c' k s.
Proof. intros H. unfold bind. by rewrite H. Qed.

Lemma convert_body_any_chunk_size (E : Env) (c1 c2 : Z) (s : Store) :
  (1 ≤ c1)%Z → (1 ≤ c2)%Z →
  (∀ header lines, csv_lines E s (merged_csv E) = Ret (header :: lines) →
                   NoDup (mangle_dupe_cols E header)) →
  convert_body E c1 s = convert_body E c2 s.
Proof.
  intros H1 H2 Hnd. unfold convert_body.
  rewrite !(bind_ok _ _ _ _ _ _ (log_run _ _ s)).
  assert (load_large_csv_to_pd E (merged_csv E) c1 s
          = load_large_csv_to_pd E (merged_csv E) c2 s) as Hload
    by (by rewrite !load_exact).
  by rewrite (bind_same_run _ _ _ _ Hload).
Qed.

(** [convert] where the setup of the directories fails. *)
Lemma convert_setup_fails (E : Env) (s : Store) :
  ¬ (mkdir_ok (INTERIM_DATA_DIR E) s ∧ mkdir_ok (RAW_DATA_DIR E) s) →
  ∃ s' evs,
    (s' = s ∨
     s' = mkStore (<[INTERIM_DATA_DIR E := Dir]> (fs s))
            (FETCHER_BASE_PARAMS s)) ∧
    ∀ chunk_size,
      convert E chunk_size s = mkRun (Raise FileExistsError) s' evs.
Proof.
  intros Hno. unfold convert.
  destruct (mkdir_ok_dec (INTERIM_DATA_DIR E) s) as [Hi|Hi].
  - set (s1 := mkStore (<[INTERIM_DATA_DIR E := Dir]> (fs s))
                 (FETCHER_BASE_PARAMS s)).
    assert (¬ mkdir_ok (RAW_DATA_DIR E) s1) as Hr1.
    { unfold mkdir_ok in *. unfold s1. cbn [fs].
      rewrite lookup_insert_ne by (apply not_eq_sym, data_dirs_differ).
      tauto. }
    exists s1, ([EvMkdir (INTERIM_DATA_DIR E)] ++ [EvMkdir (RAW_DATA_DIR E)]).
    split; [by right|]. intros chunk_size.
    rewrite (bind_ok _ _ _ _ _ _ (mkdir_run _ s Hi)). fold s1.
    by rewrite (bind_raise _ _ _ _ _ _ (mkdir_fails _ s1 Hr1)).
  - exists s, [EvMkdir (INTERIM_DATA_DIR E)]. split; [by left|].
    intros chunk_size.
    by rewrite (bind_raise _ _ _ _ _ _ (mkdir_fails _ s Hi)).
Qed.

(** X20.  The chunk size of [convert] changes nothing: with any two
    chunk sizes of at least one, the run is the same, in its result, in
    the store it leaves and in every message and write.  The table is
    read in chunks and the chunks are put together again before anything
    else is done. *)
Theorem convert_chunk_size_is_immaterial (E : Env) (c1 c2 : Z) (s : Store) :
  (1 ≤ c1)%Z → (1 ≤ c2)%Z →
  (∀ header lines, csv_lines E s (merged_csv E) = Ret (header :: lines) →
                   NoDup (mangle_dupe_cols E header)) →
  convert E c1 s = convert E c2 s.
Proof.
  intros H1 H2 Hnd.
  destruct (mkdir_ok_dec (INTERIM_DATA_DIR E) s) as [Hi|Hi];
    [destruct (mkdir_ok_dec (RAW_DATA_DIR E) s) as [Hr|Hr]|].
  - rewrite !(convert_run E _ s Hi Hr). cbv zeta.
    rewrite (convert_body_any_chunk_size E c1 c2 (after_setup E s)); try done.
    intros header lines. rewrite csv_lines_after_setup. apply Hnd.
  - destruct (convert_setup_fails E s) as (s' & evs & _ & Hrun); [tauto|].
    by rewrite !Hrun.
  - destruct (convert_setup_fails E s) as (s' & evs & _ & Hrun); [tauto|].
    by rewrite !Hrun.
Qed.

Lemma convert_chunk_size_is_immaterial_witness :
  convert local_env 1 mixed_table = convert local_env 1000 mixed_table.
Proof.
  apply (convert_chunk_size_is_immaterial local_env 1 1000 mixed_table).
  - lia.
  - lia.
  - intros header lines H. vm_compute in H. injection H as <- <-.
    apply (bool_decide_unpack _). vm_compute. exact I.
Defined.



(** *** What [convert] leaves alone *)







